(** * Streaming core of the poisson-ai extension: a shallow embedding

    The definitions below transcribe, function by function, the TypeScript of
    [extensions/poisson-ai/src/api/backendClient.ts] (the classes
    BackendClient and SettingsManager), the constant
    [NON_RETRYABLE_ERROR_TYPES] of the API types and section 18 of
    [RAO_AI_TYPESCRIPT_IMPLEMENTATION_PLAN.md].

    Conventions.
    - A JavaScript string is a [string]; one [ascii] stands for one UTF-16
      code unit (code units below 256), so [String.length] is [.length].
    - A JavaScript number that the code only uses as an integer counter or an
      integer key is a [Z]; all counters stay far below 2^53, where [+ 1] on
      a number is exact.
    - A [Map] is a [gmap]; an object held in a [Map] is the record stored
      under its key (the code writes the mutated object back under the same
      key, so the stored record is the object).
    - A method that reads and writes [this] takes the state and returns the
      new state next to its result. *)

From Stdlib Require Import ZArith Ascii String List Bool Lia.
From Stdlib Require QArith Lqa.
From stdpp Require Import base option gmap strings list.

Local Open Scope string_scope.
Local Open Scope list_scope.
Set Warnings "-register-all".

(** [simpl] computes string concatenation on constructors. *)
#[local] Arguments String.append !s1 s2 : simpl nomatch.

(** ** JavaScript string primitives *)

Module Js.

(** The characters that cannot be written inside a string literal. *)
Definition quote : ascii := "034"%char.
Definition LF : ascii := "010"%char.
Definition TAB : ascii := "009"%char.
Definition backslash : ascii := "\"%char.

Definition str (c : ascii) : string := String c EmptyString.

(** [s.startsWith(p)] *)
Definition startsWith (s p : string) : bool := String.prefix p s.

Fixpoint drop_chars (n : nat) (s : string) : string :=
  match n, s with
  | O, _ => s
  | S _, EmptyString => EmptyString
  | S n', String _ s' => drop_chars n' s'
  end.

Fixpoint take_chars (n : nat) (s : string) : string :=
  match n, s with
  | O, _ => EmptyString
  | S _, EmptyString => EmptyString
  | S n', String c s' => String c (take_chars n' s')
  end.

(** [s.substring(start, end)]: both indices are clamped to the length and
    swapped when [start > end]. *)
Definition substring (s : string) (start stop : nat) : string :=
  take_chars (Nat.max start stop - Nat.min start stop) (drop_chars (Nat.min start stop) s).

(** [s.substring(start)] *)
Definition substring_from (s : string) (start : nat) : string := drop_chars start s.

(** [s.includes(sub)]: [sub] occurs at some position of [s]. *)
Fixpoint includes (s sub : string) : bool :=
  String.prefix sub s ||
  match s with
  | EmptyString => false
  | String _ s' => includes s' sub
  end.

(** [s.replace(/pat/g, rep)] for a pattern that is a non-empty sequence of
    literal characters and a replacement without [$]: the matches are taken
    from left to right and do not overlap; replaced text is not scanned
    again.  [skip] counts the characters of the current match that are
    still to be consumed. *)
Fixpoint replace_go (pat rep : string) (skip : nat) (s : string) : string :=
  match s with
  | EmptyString => EmptyString
  | String c s' =>
      match skip with
      | S k => replace_go pat rep k s'
      | O =>
          if String.prefix pat s
          then rep +:+ replace_go pat rep (String.length pat - 1) s'
          else String c (replace_go pat rep 0 s')
      end
  end.

Definition replace (pat rep : string) (s : string) : string :=
  replace_go pat rep 0 s.

(** The character class [\s] on code units below 256: TAB, LF, VT, FF, CR,
    space and U+00A0. *)
Definition is_space (c : ascii) : bool :=
  match nat_of_ascii c with
  | 9 | 10 | 11 | 12 | 13 | 32 | 160 => true
  | _ => false
  end.

End Js.

(** ** 4.1 Frame decoder *)

Module FrameDecoder.
Import Js.

Section WithJSON.
(** [JSON.parse]: [None] stands for the [SyntaxError] it throws on
    malformed text. *)
Context {Json : Type} (JSON_parse : string -> option Json).

(** Body of the [for (const line of lines)] loop of
    [BackendClient.streamQuery]: [Some v] when the line yields [v],
    [None] when the line yields nothing. *)
Definition streamQuery_line (line : string) : option Json :=
  if startsWith line "data: " then
    let jsonData := substring_from line 6 in
    if (0 <? String.length jsonData)%nat && negb (jsonData =? "[DONE]")%string then
      match JSON_parse jsonData with
      | Some parsed => Some parsed
      | None => None (* catch (parseError): skip malformed JSON chunks *)
      end
    else None
  else None.

(** The events yielded for the lines of one chunk, in order. *)
Definition streamQuery_lines (lines : list string) : list Json :=
  omap streamQuery_line lines.

Record SSEEvent := { type : string; data : Json }.

(** [SSEParser.parseSSELine] of the implementation plan; [None] is the
    returned [null]. *)
Definition parseSSELine (line : string) : option SSEEvent :=
  if startsWith line "data: " then
    let jsonData := substring_from line 7 in
    if (0 <? String.length jsonData)%nat && negb (jsonData =? "[DONE]")%string then
      match JSON_parse jsonData with
      | Some v => Some {| type := "EVENT"; data := v |}
      | None => None (* catch (e) *)
      end
    else None
  else None.
(** [chunk.split('\n')]: the pieces between the line feeds; a string
    without a line feed is its own single piece. *)
Fixpoint split_LF (chunk : string) : list string :=
  match chunk with
  | EmptyString => [EmptyString]
  | String c rest =>
      if Ascii.eqb c LF then EmptyString :: split_LF rest
      else match split_LF rest with
           | line :: lines => String c line :: lines
           | [] => [String c EmptyString]
           end
  end.

(** One turn of the [while] loop of [streamQuery]: the events yielded for
    one decoded chunk. *)
Definition streamQuery_chunk (chunk : string) : list Json :=
  let lines := split_LF chunk in
  streamQuery_lines lines.

(** The events yielded for the chunks that the reader delivers, until it is
    done. *)
Definition streamQuery_chunks (chunks : list string) : list Json :=
  flat_map streamQuery_chunk chunks.
End WithJSON.

Arguments type {Json} _.
Arguments data {Json} _.

End FrameDecoder.

(** ** 4.3 Escape normalizer *)

Module EscapeNormalizer.
Import Js.

(** [x |> f] is the method chain [x.f(...)]. *)
Definition pipe {A B : Type} (x : A) (f : A -> B) : B := f x.
Infix "|>" := pipe (at level 45, left associativity, only parsing).

(** The regular expression literals of the source, decoded: in a regular
    expression literal [\\] matches one backslash character, so
    [/\\\\\\\\/] is four backslashes, [/\\\\\\n/] is three backslashes and
    the letter n, the fourth pattern is two backslashes and a quote,
    [/\\n/] is one backslash and the letter n.  In a string literal ['\\n'] is a backslash
    and the letter n, ['\n'] is the line feed and ['\\'] is one
    backslash. *)
Definition unescapeStreamingJson (content : string) : string :=
  content
    |> replace "\\\\" "<<<BS>>>"
    |> replace "\\\n" "<<<NL>>>"
    |> replace "\\\t" "<<<TAB>>>"
    |> replace ("\\" +:+ str quote) "<<<DQ>>>"
    |> replace "\n" (str LF)
    |> replace "\t" (str TAB)
    |> replace "<<<NL>>>" "\n"
    |> replace "<<<TAB>>>" "\t"
    |> replace "<<<DQ>>>" (str quote)
    |> replace "<<<BS>>>" "\".

End EscapeNormalizer.

(** ** 4.2 Incremental field extractor *)

Module FieldExtractor.
Import Js.

(** [\s*]: the rest of the string after its leading white space. *)
Fixpoint skip_spaces (s : string) : string :=
  match s with
  | String c s' => if is_space c then skip_spaces s' else s
  | EmptyString => EmptyString
  end.

(** The word instructions between two quote characters. *)
Definition instructions_key : string :=
  String quote ("instructions" +:+ str quote).

(** [endMarkerPattern] matches at the start of [s]: white space, a quote,
    white space, a comma, white space, the quoted word instructions.  White
    space is neither a quote nor a comma, so each [\s*] takes all the white
    space there is. *)
Definition endMarkerPattern_at (s : string) : bool :=
  match skip_spaces s with
  | String c1 s1 =>
      if Ascii.eqb c1 quote then
        match skip_spaces s1 with
        | String c2 s2 =>
            if Ascii.eqb c2 ","%char then
              String.prefix instructions_key (skip_spaces s2)
            else false
        | EmptyString => false
        end
      else false
  | EmptyString => false
  end.

(** [accumulated.match(endMarkerPattern)]: the index of the leftmost
    match, [None] for the [null] of no match. *)
Fixpoint match_endMarkerPattern (s : string) : option nat :=
  if endMarkerPattern_at s then Some 0%nat
  else match s with
       | EmptyString => None
       | String _ s' => S <$> match_endMarkerPattern s'
       end.

Definition BUFFER_SIZE : nat := 20.

Record StreamContent := { content : string; endReached : bool }.

Definition extractStreamContent (accumulated currentStreamed : string)
  : StreamContent :=
  match match_endMarkerPattern accumulated with
  | Some index =>
      {| content := substring accumulated 0 index; endReached := true |}
  | None =>
      if (BUFFER_SIZE <? String.length accumulated)%nat then
        {| content :=
             substring accumulated 0 (String.length accumulated - BUFFER_SIZE);
           endReached := false |}
      else {| content := ""; endReached := false |}
  end.

End FieldExtractor.

(** ** JavaScript numbers that are compared *)

Module Number.

(** A number where the code compares it or takes a minimum or a maximum:
    [NaN], the two infinities, or a finite value.  Every finite double is a
    rational and comparison, [Math.min] and [Math.max] do not round, so a
    finite value is a [Q]; the two zeros are one value here. *)
Inductive number : Type :=
| NaN
| NegInfinity
| Finite (q : QArith_base.Q)
| PosInfinity.

(** [a <= b]; a comparison with [NaN] is false. *)
Definition le (a b : number) : bool :=
  match a, b with
  | NaN, _ | _, NaN => false
  | NegInfinity, _ => true
  | _, PosInfinity => true
  | Finite p, Finite q => QArith_base.Qle_bool p q
  | _, _ => false
  end.

(** [a >= b] *)
Definition ge (a b : number) : bool := le b a.

(** [a < b] *)
Definition lt (a b : number) : bool :=
  match a, b with
  | NaN, _ | _, NaN => false
  | _, _ => negb (le b a)
  end.

(** [Math.min(a, b)] and [Math.max(a, b)] *)
Definition min (a b : number) : number :=
  match a, b with
  | NaN, _ | _, NaN => NaN
  | _, _ => if le a b then a else b
  end.

Definition max (a b : number) : number :=
  match a, b with
  | NaN, _ | _, NaN => NaN
  | _, _ => if le a b then b else a
  end.

(** The truth value of a number: [NaN] and zero are falsy. *)
Definition truthy (a : number) : bool :=
  match a with
  | NaN => false
  | Finite q => negb (QArith_base.Qeq_bool q (QArith_base.inject_Z 0))
  | _ => true
  end.

Definition of_Z (z : Z) : number := Finite (QArith_base.inject_Z z).

End Number.

(** ** Constants of the API types *)

Module ApiTypes.

Inductive AIProvider : Type := openai | anthropic.

Definition AVAILABLE_MODELS (provider : AIProvider) : list string :=
  match provider with
  | openai => ["gpt-5-mini"]
  | anthropic => ["claude-sonnet-4-20250514"]
  end.

Definition DEFAULT_MODELS (provider : AIProvider) : string :=
  match provider with
  | openai => "gpt-5-mini"
  | anthropic => "claude-sonnet-4-20250514"
  end.

(** [TIMING_CONFIG], in milliseconds. *)
Definition MAX_POLLING_ATTEMPTS : Z := 3000.
Definition POLLING_SLEEP_MS : Z := 100.
Definition ACTIVITY_TIMEOUT_MS : Z := 30000.
Definition HEALTH_CHECK_TIMEOUTS_MS : list Z := [5000; 10000; 15000]%Z.
Definition RETRY_PAUSE_MS : Z := 2000.

(** [BACKEND_ENVIRONMENTS.local.url] and
    [BACKEND_ENVIRONMENTS.production.url]. *)
Definition local_url : string := "http://localhost:8080".
Definition production_url : string := "https://api.lotas.ai".

End ApiTypes.

(** ** 4.7 Automation decision engine *)

Module SettingsManager.
Import Js.

Record AutomationSettings := {
  auto_accept_edits : bool;
  auto_accept_console : bool;
  auto_accept_terminal : bool;
  auto_run_files : bool;
  auto_delete_files : bool;
  auto_accept_console_allow_anything : bool;
  auto_accept_terminal_allow_anything : bool;
  auto_run_files_allow_anything : bool;
  auto_accept_console_allow_list : list string;
  auto_accept_console_deny_list : list string;
  auto_accept_terminal_allow_list : list string;
  auto_accept_terminal_deny_list : list string;
  auto_run_files_allow_list : list string;
  auto_run_files_deny_list : list string
}.

Definition defaultSettings : AutomationSettings := {|
  auto_accept_edits := false;
  auto_accept_console := false;
  auto_accept_terminal := false;
  auto_run_files := false;
  auto_delete_files := false;
  auto_accept_console_allow_anything := false;
  auto_accept_terminal_allow_anything := false;
  auto_run_files_allow_anything := false;
  auto_accept_console_allow_list := [];
  auto_accept_console_deny_list := [];
  auto_accept_terminal_allow_list := [];
  auto_accept_terminal_deny_list := [];
  auto_run_files_allow_list := [];
  auto_run_files_deny_list := []
|}.

(** What [context.globalState] holds under the automation settings key:
    [None] when nothing was stored. *)
Definition GlobalState := option AutomationSettings.

(** [globalState.get(key, defaultSettings)] *)
Definition getAutomationSettings (globalState : GlobalState) : AutomationSettings :=
  match globalState with
  | Some stored => stored
  | None => defaultSettings
  end.

Definition matchesPattern (item pattern : string) : bool :=
  includes item pattern || includes pattern item.

(** [allowList.some(pattern => this.matchesPattern(item, pattern))] *)
Definition isInAllowList (item : string) (allowList : list string) : bool :=
  existsb (fun pattern => matchesPattern item pattern) allowList.

Definition isInDenyList (item : string) (denyList : list string) : bool :=
  existsb (fun pattern => matchesPattern item pattern) denyList.

Definition canAutoAcceptTerminalCommand
    (globalState : GlobalState) (command : string) : bool :=
  let settings := getAutomationSettings globalState in
  if negb (auto_accept_terminal settings) then false
  else if auto_accept_terminal_allow_anything settings then
    negb (isInDenyList command (auto_accept_terminal_deny_list settings))
  else isInAllowList command (auto_accept_terminal_allow_list settings).

Definition canAutoAcceptConsoleCommand
    (globalState : GlobalState) (command : string) : bool :=
  let settings := getAutomationSettings globalState in
  if negb (auto_accept_console settings) then false
  else if auto_accept_console_allow_anything settings then
    negb (isInDenyList command (auto_accept_console_deny_list settings))
  else isInAllowList command (auto_accept_console_allow_list settings).

(** The two variables of [process.env] that the class reads; [None] is
    [undefined]. *)
Record Env := { HOME : option string; USERPROFILE : option string }.

(** [a || b] on values that are a string or [undefined]: the empty string
    is falsy. *)
Definition or_else (a b : option string) : option string :=
  match a with
  | Some s => if (s =? "")%string then b else a
  | None => b
  end.

(** The first occurrence of [pattern] in [s]: the text before it and the
    text after it. *)
Fixpoint find_first (pattern s : string) : option (string * string) :=
  if String.prefix pattern s
  then Some (EmptyString, drop_chars (String.length pattern) s)
  else match s with
       | EmptyString => None
       | String c s' =>
           match find_first pattern s' with
           | Some (before, after) => Some (String c before, after)
           | None => None
           end
       end.

(** The replacement text of [s.replace(pattern, replacement)] for a string
    pattern: [$$] stands for a dollar, [$&] for the match, [$`] for the text
    before the match, [$'] for the text after it; a pattern without capture
    groups leaves every other [$] as it is. *)
Fixpoint getSubstitution (matched before after replacement : string) : string :=
  match replacement with
  | EmptyString => EmptyString
  | String c rest =>
      if Ascii.eqb c "$"%char then
        match rest with
        | String d rest' =>
            if Ascii.eqb d "$"%char then
              String "$"%char (getSubstitution matched before after rest')
            else if Ascii.eqb d "&"%char then
              matched +:+ getSubstitution matched before after rest'
            else if Ascii.eqb d "`"%char then
              before +:+ getSubstitution matched before after rest'
            else if Ascii.eqb d "'"%char then
              after +:+ getSubstitution matched before after rest'
            else String c (getSubstitution matched before after rest)
        | EmptyString => String c EmptyString
        end
      else String c (getSubstitution matched before after rest)
  end.

(** [s.replace(pattern, replacement)] with a string pattern: the first
    occurrence only. *)
Definition replace_string (s pattern replacement : string) : string :=
  match find_first pattern s with
  | Some (before, after) =>
      before +:+ getSubstitution pattern before after replacement +:+ after
  | None => s
  end.

Definition expandTildePath (env : Env) (path : string) : string :=
  if startsWith path "~" then
    match or_else (HOME env) (USERPROFILE env) with
    | Some homeDir =>
        if negb (homeDir =? "")%string then replace_string path "~" homeDir
        else path
    | None => path
    end
  else path.

Definition canAutoRunFile
    (globalState : GlobalState) (env : Env) (filePath : string) : bool :=
  let settings := getAutomationSettings globalState in
  if negb (auto_run_files settings) then false
  else
    let expandedPath := expandTildePath env filePath in
    if auto_run_files_allow_anything settings then
      negb (isInDenyList expandedPath
              (map (fun p => expandTildePath env p) (auto_run_files_deny_list settings)))
    else
      isInAllowList expandedPath
        (map (fun p => expandTildePath env p) (auto_run_files_allow_list settings)).

Definition validListTypes : list string :=
  [ "auto_accept_console_allow_list";
    "auto_accept_console_deny_list";
    "auto_accept_terminal_allow_list";
    "auto_accept_terminal_deny_list";
    "auto_run_files_allow_list";
    "auto_run_files_deny_list" ].

(** [validListTypes.includes(listType)] *)
Definition isValidListType (listType : string) : bool :=
  existsb (String.eqb listType) validListTypes.

(** [settings[listType]] for the name of a list. *)
Definition list_property (settings : AutomationSettings) (listType : string)
  : list string :=
  if (listType =? "auto_accept_console_allow_list")%string
  then auto_accept_console_allow_list settings
  else if (listType =? "auto_accept_console_deny_list")%string
  then auto_accept_console_deny_list settings
  else if (listType =? "auto_accept_terminal_allow_list")%string
  then auto_accept_terminal_allow_list settings
  else if (listType =? "auto_accept_terminal_deny_list")%string
  then auto_accept_terminal_deny_list settings
  else if (listType =? "auto_run_files_allow_list")%string
  then auto_run_files_allow_list settings
  else if (listType =? "auto_run_files_deny_list")%string
  then auto_run_files_deny_list settings
  else [].

(** [settings[key] = value] for the name of a list. *)
Definition set_list_property
    (settings : AutomationSettings) (key : string) (value : list string)
  : AutomationSettings :=
  {| auto_accept_edits := auto_accept_edits settings;
     auto_accept_console := auto_accept_console settings;
     auto_accept_terminal := auto_accept_terminal settings;
     auto_run_files := auto_run_files settings;
     auto_delete_files := auto_delete_files settings;
     auto_accept_console_allow_anything := auto_accept_console_allow_anything settings;
     auto_accept_terminal_allow_anything := auto_accept_terminal_allow_anything settings;
     auto_run_files_allow_anything := auto_run_files_allow_anything settings;
     auto_accept_console_allow_list :=
       if (key =? "auto_accept_console_allow_list")%string then value
       else auto_accept_console_allow_list settings;
     auto_accept_console_deny_list :=
       if (key =? "auto_accept_console_deny_list")%string then value
       else auto_accept_console_deny_list settings;
     auto_accept_terminal_allow_list :=
       if (key =? "auto_accept_terminal_allow_list")%string then value
       else auto_accept_terminal_allow_list settings;
     auto_accept_terminal_deny_list :=
       if (key =? "auto_accept_terminal_deny_list")%string then value
       else auto_accept_terminal_deny_list settings;
     auto_run_files_allow_list :=
       if (key =? "auto_run_files_allow_list")%string then value
       else auto_run_files_allow_list settings;
     auto_run_files_deny_list :=
       if (key =? "auto_run_files_deny_list")%string then value
       else auto_run_files_deny_list settings |}.

Definition getAutomationList (globalState : GlobalState) (listType : string)
  : list string :=
  let settings := getAutomationSettings globalState in
  if isValidListType listType then list_property settings listType else [].

(** [setAutomationSetting] with the name of a list as key: the settings
    read from the store are changed and written back. *)
Definition setAutomationSetting
    (key : string) (value : list string) (globalState : GlobalState) : GlobalState :=
  let currentSettings := getAutomationSettings globalState in
  Some (set_list_property currentSettings key value).

Definition setAutomationList
    (listType : string) (items : list string) (globalState : GlobalState)
  : GlobalState :=
  if isValidListType listType then setAutomationSetting listType items globalState
  else globalState.

(** The model selection.  The store holds the selected model under its own
    key: [None] when nothing was stored. *)
Definition getSelectedModel (storedModel : option string) : string :=
  match storedModel with
  | Some model => if negb (model =? "")%string then model
                  else ApiTypes.DEFAULT_MODELS ApiTypes.anthropic
  | None => ApiTypes.DEFAULT_MODELS ApiTypes.anthropic
  end.

Definition setSelectedModel (model : string) : option string := Some model.

(** [array.includes(model)] *)
Definition models_include (models : list string) (model : string) : bool :=
  existsb (String.eqb model) models.

Definition getProviderFromModel (model : string) : ApiTypes.AIProvider :=
  if models_include (ApiTypes.AVAILABLE_MODELS ApiTypes.openai) model
  then ApiTypes.openai
  else if models_include (ApiTypes.AVAILABLE_MODELS ApiTypes.anthropic) model
  then ApiTypes.anthropic
  else ApiTypes.openai.

Definition getActiveProvider (storedModel : option string) : ApiTypes.AIProvider :=
  let model := getSelectedModel storedModel in
  getProviderFromModel model.

Definition setActiveProvider (provider : ApiTypes.AIProvider) : option string :=
  let defaultModel := ApiTypes.DEFAULT_MODELS provider in
  setSelectedModel defaultModel.

Definition getAvailableModels (provider : option ApiTypes.AIProvider) : list string :=
  match provider with
  | None => ApiTypes.AVAILABLE_MODELS ApiTypes.anthropic
            ++ ApiTypes.AVAILABLE_MODELS ApiTypes.openai
  | Some provider => ApiTypes.AVAILABLE_MODELS provider
  end.

(** The temperature.  The store holds it under its own key. *)
Definition getTemperature (storedTemperature : option Number.number) : Number.number :=
  match storedTemperature with
  | Some temperature => temperature
  | None => Number.Finite (QArith_base.Qmake 1 2) (* 0.5 *)
  end.

Definition setTemperature (temperature : Number.number) : option Number.number :=
  let clampedTemp :=
    Number.max (Number.of_Z 0) (Number.min (Number.of_Z 1) temperature) in
  Some clampedTemp.

End SettingsManager.

(** ** Provider configurations *)

Module ProviderConfigManager.

Record ProviderConfig := {
  name : string;
  displayName : string;
  models : list string;
  defaultModel : string;
  supportsFunctionCalling : bool;
  supportsStreaming : bool;
  supportsVision : bool;
  maxTokens : Number.number;
  temperatureRange : Number.number * Number.number
}.

Definition PROVIDER_CONFIGS (provider : ApiTypes.AIProvider) : ProviderConfig :=
  match provider with
  | ApiTypes.openai =>
      {| name := "openai";
         displayName := "OpenAI";
         models := ApiTypes.AVAILABLE_MODELS ApiTypes.openai;
         defaultModel := ApiTypes.DEFAULT_MODELS ApiTypes.openai;
         supportsFunctionCalling := true;
         supportsStreaming := true;
         supportsVision := true;
         maxTokens := Number.of_Z 8192;
         temperatureRange := (Number.of_Z 0, Number.of_Z 1) |}
  | ApiTypes.anthropic =>
      {| name := "anthropic";
         displayName := "Anthropic";
         models := ApiTypes.AVAILABLE_MODELS ApiTypes.anthropic;
         defaultModel := ApiTypes.DEFAULT_MODELS ApiTypes.anthropic;
         supportsFunctionCalling := true;
         supportsStreaming := true;
         supportsVision := true;
         maxTokens := Number.of_Z 8192;
         temperatureRange := (Number.of_Z 0, Number.of_Z 1) |}
  end.

(** [Object.entries(PROVIDER_CONFIGS)]: the providers in the order of the
    object literal. *)
Definition entries : list (ApiTypes.AIProvider * ProviderConfig) :=
  [ (ApiTypes.openai, PROVIDER_CONFIGS ApiTypes.openai);
    (ApiTypes.anthropic, PROVIDER_CONFIGS ApiTypes.anthropic) ].

Definition isValidModelForProvider (provider : ApiTypes.AIProvider) (model : string)
  : bool :=
  let config := PROVIDER_CONFIGS provider in
  existsb (String.eqb model) (models config).

Definition getAllAvailableModels : list string :=
  flat_map (fun entry => models (snd entry)) entries.

(** The [for] loop of [getProviderForModel] over the entries that are left;
    [None] is the [null] returned after the loop. *)
Fixpoint getProviderForModel_loop
    (rest : list (ApiTypes.AIProvider * ProviderConfig)) (model : string)
  : option ApiTypes.AIProvider :=
  match rest with
  | [] => None
  | (provider, config) :: rest' =>
      if existsb (String.eqb model) (models config) then Some provider
      else getProviderForModel_loop rest' model
  end.

Definition getProviderForModel (model : string) : option ApiTypes.AIProvider :=
  getProviderForModel_loop entries model.

Definition validateTemperature
    (provider : ApiTypes.AIProvider) (temperature : Number.number) : bool :=
  let config := PROVIDER_CONFIGS provider in
  let '(min, max) := temperatureRange config in
  Number.ge temperature min && Number.le temperature max.

Definition clampTemperature
    (provider : ApiTypes.AIProvider) (temperature : Number.number) : Number.number :=
  let config := PROVIDER_CONFIGS provider in
  let '(min, max) := temperatureRange config in
  Number.max min (Number.min max temperature).

(** The requirements of [getRecommendedProvider]; [None] is a property that
    is not given. *)
Record Requirements := {
  functionCalling : option bool;
  vision : option bool;
  requiredTokens : option Number.number  (* maxTokens *)
}.

Definition is_true (flag : option bool) : bool :=
  match flag with Some b => b | None => false end.

Definition is_truthy (n : option Number.number) : bool :=
  match n with Some n => Number.truthy n | None => false end.

(** [config.maxTokens < requirements.maxTokens], read only when the
    requirement is truthy. *)
Definition below_requirement (config : ProviderConfig) (n : option Number.number)
  : bool :=
  match n with
  | Some n => Number.lt (maxTokens config) n
  | None => false
  end.

Fixpoint getRecommendedProvider_loop
    (providers : list (ApiTypes.AIProvider * ProviderConfig))
    (requirements : Requirements) : ApiTypes.AIProvider :=
  match providers with
  | [] => ApiTypes.anthropic (* Default to Anthropic *)
  | (provider, config) :: rest =>
      if is_true (functionCalling requirements)
         && negb (supportsFunctionCalling config)
      then getRecommendedProvider_loop rest requirements
      else if is_true (vision requirements) && negb (supportsVision config)
      then getRecommendedProvider_loop rest requirements
      else if is_truthy (requiredTokens requirements)
              && below_requirement config (requiredTokens requirements)
      then getRecommendedProvider_loop rest requirements
      else provider
  end.

Definition getRecommendedProvider (requirements : Requirements) : ApiTypes.AIProvider :=
  getRecommendedProvider_loop entries requirements.

End ProviderConfigManager.

(** ** API keys *)

Module APIKeyManager.

(** The secret storage of the editor, as far as the slot
    [poissonAi.raoApiKey] goes: it works and holds a value or nothing, or
    its calls are rejected with an error of some message. *)
Inductive SecretStorage : Type :=
| Working (stored : option string)
| Failing (message : string).

(** What a method shows to the user. *)
Inductive Notification : Type :=
| InformationMessage (text : string)
| ErrorMessage (text : string).

(** What a method that writes leaves behind: the storage, what was shown,
    and the message of the error it throws, if it throws. *)
Record Outcome := {
  storage : SecretStorage;
  shown : list Notification;
  thrown : option string
}.

(** [provider === 'rao' || provider === 'openai'] *)
Definition supported (provider : string) : bool :=
  (provider =? "rao")%string || (provider =? "openai")%string.

Definition saveKey (provider key : string) (secrets : SecretStorage) : Outcome :=
  if supported provider then
    match secrets with
    | Working _ =>
        {| storage := Working (Some key);
           shown := [InformationMessage "Rao API key saved successfully"];
           thrown := None |}
    | Failing errorMessage =>
        {| storage := secrets;
           shown := [ErrorMessage ("Failed to save API key: " +:+ errorMessage)];
           thrown := Some errorMessage |}
    end
  else
    let errorMessage := "Unsupported provider: " +:+ provider in
    {| storage := secrets;
       shown := [ErrorMessage ("Failed to save API key: " +:+ errorMessage)];
       thrown := Some errorMessage |}.

(** [(key && key.length > 0) ? key : undefined] *)
Definition non_empty (key : option string) : option string :=
  match key with
  | Some k => if (0 <? String.length k)%nat then Some k else None
  | None => None
  end.

(** [envKey] is [process.env.RAO_API_KEY]. *)
Definition getKey (provider : string) (secrets : SecretStorage) (envKey : option string)
  : option string :=
  if supported provider then
    match secrets with
    | Working storedKey =>
        match non_empty storedKey with
        | Some key => Some key
        | None => non_empty envKey
        end
    | Failing _ => None (* catch: undefined *)
    end
  else None.

Definition deleteKey (provider : string) (secrets : SecretStorage) : Outcome :=
  if supported provider then
    match secrets with
    | Working _ =>
        {| storage := Working None;
           shown := [InformationMessage "Rao API key deleted successfully"];
           thrown := None |}
    | Failing errorMessage =>
        {| storage := secrets;
           shown := [ErrorMessage ("Failed to delete API key: " +:+ errorMessage)];
           thrown := Some errorMessage |}
    end
  else
    let errorMessage := "Unsupported provider: " +:+ provider in
    {| storage := secrets;
       shown := [ErrorMessage ("Failed to delete API key: " +:+ errorMessage)];
       thrown := Some errorMessage |}.

Definition hasKey (provider : string) (secrets : SecretStorage) (envKey : option string)
  : bool :=
  match getKey provider secrets envKey with
  | Some key => (0 <? String.length key)%nat
  | None => false
  end.

(** [c.toLowerCase()] on a code unit below 256: the letters A to Z and the
    capital letters of Latin-1 move up by 32. *)
Definition toLowerCase_char (c : ascii) : ascii :=
  let n := nat_of_ascii c in
  if (((65 <=? n) && (n <=? 90)) || ((192 <=? n) && (n <=? 214))
      || ((216 <=? n) && (n <=? 222)))%nat
  then ascii_of_nat (n + 32)
  else c.

Fixpoint toLowerCase (s : string) : string :=
  match s with
  | EmptyString => EmptyString
  | String c rest => String (toLowerCase_char c) (toLowerCase rest)
  end.

Definition invalidValues : list string :=
  [""; "undefined"; "null"; "your-key-here"; "api-key"].

Definition validateKeyFormat (provider key : string) : bool :=
  if (String.length key =? 0)%nat then false
  else if (String.length key <? 10)%nat then false
  else if existsb (String.eqb (toLowerCase key)) invalidValues then false
  else true.

Definition testKey (provider : string) (secrets : SecretStorage) (envKey : option string)
  : bool :=
  match getKey provider secrets envKey with
  | Some key => if (key =? "")%string then false else validateKeyFormat provider key
  | None => false
  end.

Inductive KeySource : Type := storage_source | environment_source | none_source.

Record KeyStatus := {
  status_hasKey : bool;
  status_isValid : bool;
  status_source : KeySource
}.

Definition getKeyStatus (provider : string) (secrets : SecretStorage)
    (envKey : option string) : KeyStatus :=
  match secrets with
  | Working storedKey =>
      match non_empty storedKey with
      | Some key =>
          {| status_hasKey := true;
             status_isValid := validateKeyFormat provider key;
             status_source := storage_source |}
      | None =>
          match non_empty envKey with
          | Some key =>
              {| status_hasKey := true;
                 status_isValid := validateKeyFormat provider key;
                 status_source := environment_source |}
          | None =>
              {| status_hasKey := false;
                 status_isValid := false;
                 status_source := none_source |}
          end
      end
  | Failing _ =>
      {| status_hasKey := false; status_isValid := false; status_source := none_source |}
  end.

End APIKeyManager.

(** ** 4.9 Error classifier *)

Module ErrorClassifier.

(** The values an [error: any] can be.  An object is the list of its own
    properties, a property name occurring at most once. *)
Inductive JsValue : Type :=
| JsUndefined
| JsNull
| JsBoolean (b : bool)
| JsNumber (n : Z)
| JsString (s : string)
| JsObject (properties : list (string * JsValue)).

Fixpoint property (properties : list (string * JsValue)) (name : string) : JsValue :=
  match properties with
  | [] => JsUndefined
  | (k, v) :: rest => if String.eqb k name then v else property rest name
  end.

(** [v?.name]: [undefined] on [null] and [undefined]; a primitive has no
    property of the names read here. *)
Definition optional_get (v : JsValue) (name : string) : JsValue :=
  match v with
  | JsObject properties => property properties name
  | _ => JsUndefined
  end.

(** The truth value of a condition. *)
Definition truthy (v : JsValue) : bool :=
  match v with
  | JsUndefined | JsNull => false
  | JsBoolean b => b
  | JsNumber n => negb (n =? 0)%Z
  | JsString s => negb (s =? "")%string
  | JsObject _ => true
  end.

(** [array.includes(v)] on an array of strings: only an equal string is
    found. *)
Definition array_includes (array : list string) (v : JsValue) : bool :=
  match v with
  | JsString s => existsb (String.eqb s) array
  | _ => false
  end.

Definition NON_RETRYABLE_ERROR_TYPES : list string :=
  [ "SUBSCRIPTION_LIMIT_REACHED";
    "TRIAL_EXPIRED";
    "PAYMENT_ACTION_REQUIRED";
    "USAGE_BILLING_REQUIRED";
    "USAGE_BILLING_LIMIT_REACHED";
    "SUBSCRIPTION_EXPIRED";
    "SUBSCRIPTION_PAYMENT_FAILED";
    "OVERAGE_PAYMENT_FAILED";
    "AUTHENTICATION_ERROR" ].

Definition isRetryableError (error : JsValue) : bool :=
  let error_type := optional_get (optional_get error "error") "error_type" in
  if truthy error_type then
    negb (array_includes NON_RETRYABLE_ERROR_TYPES error_type)
  else true (* Default to retryable *).

End ErrorClassifier.

(** ** The backend client *)

Module BackendClient.
Import ErrorClassifier.

Inductive Environment : Type := local | production.

Record BackendConfig := {
  url : string;
  environment : Environment;
  timeout : Z
}.

(** The fields [config] and [environmentChecked] of the client. *)
Record t := {
  config : option BackendConfig;
  environmentChecked : bool
}.

Definition new : t := {| config := None; environmentChecked := false |}.

(** What the health request to the local backend meets: an error, or a
    response with a status. *)
Inductive Probe : Type :=
| ProbeThrows
| ProbeStatus (status : Z).

(** What the client finds around it when it detects the environment: the
    value of the setting [backend.url] and the answer of the local
    backend. *)
Record Surroundings := {
  backend_url : option string;
  local_probe : Probe
}.

(** [SettingsManager.getBackendUrl]: [config.get('backend.url') ||
    undefined]. *)
Definition getBackendUrl (w : Surroundings) : option string :=
  match backend_url w with
  | Some u => if (u =? "")%string then None else Some u
  | None => None
  end.

(** [detectEnvironment]: the configuration, the client after the call, and
    whether the local backend was asked. *)
Definition detectEnvironment (w : Surroundings) (this : t)
  : BackendConfig * t * bool :=
  match getBackendUrl w with
  | Some manualUrl =>
      let config :=
        {| url := manualUrl;
           environment := if Js.includes manualUrl "localhost" then local else production;
           timeout := 30000 |} in
      (config, {| config := Some config; environmentChecked := true |}, false)
  | None =>
      let localAvailable :=
        match local_probe w with
        | ProbeStatus status => (status =? 200)%Z
        | ProbeThrows => false
        end in
      let config :=
        if localAvailable then
          {| url := ApiTypes.local_url; environment := local; timeout := 30000 |}
        else
          {| url := ApiTypes.production_url; environment := production;
             timeout := 30000 |} in
      (config, {| config := Some config; environmentChecked := true |}, true)
  end.

Definition getBackendConfig (w : Surroundings) (this : t)
  : BackendConfig * t * bool :=
  match environmentChecked this, config this with
  | true, Some config => (config, this, false)
  | _, _ => detectEnvironment w this
  end.

Definition resetEnvironment (w : Surroundings) (this : t) : t * bool :=
  let this := {| config := None; environmentChecked := false |} in
  let '(_, this, asked) := detectEnvironment w this in
  (this, asked).

(** One attempt of [checkHealth]: the request fails, or a response arrives
    with a status and, when its JSON body can be read and has a [status]
    string, that string. *)
Inductive HealthAttempt : Type :=
| AttemptThrows
| AttemptResponds (status : Z) (body_status : option string).

(** The attempt returns [true] from the loop. *)
Definition is_up (attempt : HealthAttempt) : bool :=
  match attempt with
  | AttemptResponds status (Some body_status) =>
      (status =? 200)%Z && (body_status =? "UP")%string
  | _ => false
  end.

(** What [checkHealth] does in time: a request with its timeout, or a
    pause. *)
Inductive HealthEvent : Type :=
| Request (timeoutMs : Z)
| Pause (ms : Z).

(** The [for] loop of [checkHealth] from index [i] on; [timeouts] are the
    entries from index [i] and [count] is the length of the whole array.
    [answer i timeoutMs] is what attempt [i] meets. *)
Fixpoint checkHealth_loop
    (answer : nat -> Z -> HealthAttempt) (count i : nat) (timeouts : list Z)
  : bool * list HealthEvent :=
  match timeouts with
  | [] => (false, [])
  | timeoutMs :: rest =>
      if is_up (answer i timeoutMs) then (true, [Request timeoutMs])
      else
        let pause :=
          if (i <? count - 1)%nat then [Pause ApiTypes.RETRY_PAUSE_MS] else [] in
        let '(result, events) := checkHealth_loop answer count (S i) rest in
        (result, Request timeoutMs :: pause ++ events)
  end.

(** [checkHealth], once the backend configuration is there: the result and
    what the loop did. *)
Definition checkHealth (answer : nat -> Z -> HealthAttempt) : bool * list HealthEvent :=
  checkHealth_loop answer (List.length ApiTypes.HEALTH_CHECK_TIMEOUTS_MS) 0
    ApiTypes.HEALTH_CHECK_TIMEOUTS_MS.

(** The longest time an event can take, in milliseconds. *)
Definition duration (e : HealthEvent) : Z :=
  match e with
  | Request timeoutMs => timeoutMs
  | Pause ms => ms
  end.

Record ErrorResponse := {
  error_type : string;
  error_message : string;
  user_message : option string;
  action_required : option string
}.

Record BackendResponse := {
  success : bool;
  message : option string;
  error : option ErrorResponse;
  data : option JsValue
}.

(** [new Error(message)]: an object with its message and without a
    property [error]. *)
Definition new_Error (message : string) : JsValue :=
  JsObject [("message", JsString message)].

(** [a || b || fallback] on strings that may be [undefined]. *)
Definition first_truthy (a b : option string) (fallback : string) : string :=
  match a with
  | Some x => if negb (x =? "")%string then x
              else match b with
                   | Some y => if negb (y =? "")%string then y else fallback
                   | None => fallback
                   end
  | None => match b with
            | Some y => if negb (y =? "")%string then y else fallback
            | None => fallback
            end
  end.

(** [responseData.error?.user_message] *)
Definition error_user_message (responseData : BackendResponse) : option string :=
  match error responseData with
  | Some e => user_message e
  | None => None
  end.

(** What [response.json()] settles to, and what [fetch] settles to. *)
Inductive JsonOutcome : Type :=
| JsonRejects (error : JsValue)
| JsonResolves (responseData : BackendResponse).

Inductive FetchOutcome : Type :=
| FetchRejects (error : JsValue)
| FetchResolves (ok : bool) (json : JsonOutcome).

Inductive Result : Type :=
| Returns (responseData : BackendResponse)
| Throws (error : JsValue).

(** [sendQuery], once the backend configuration is there: whether the
    query was posted, and the result.  The [catch] block classifies the
    error and throws it again. *)
Definition sendQuery (apiKey : option string) (fetch : FetchOutcome) : bool * Result :=
  match apiKey with
  | None => (false, Throws (new_Error "No API key found. Please set up a valid Rao API key."))
  | Some key =>
      if (key =? "")%string then
        (false, Throws (new_Error "No API key found. Please set up a valid Rao API key."))
      else
        (true,
         match fetch with
         | FetchRejects error =>
             let _ := isRetryableError error in Throws error
         | FetchResolves ok (JsonRejects error) =>
             let _ := isRetryableError error in Throws error
         | FetchResolves ok (JsonResolves responseData) =>
             if negb ok then
               let error :=
                 new_Error (first_truthy (error_user_message responseData)
                              (message responseData) "Request failed") in
               let _ := isRetryableError error in Throws error
             else Returns responseData
         end)
  end.

End BackendClient.

(** ** 4.4 Message identifiers *)

Module MessageManager.

Record t := { messageIdCounter : Z }.

Definition new : t := {| messageIdCounter := 0 |}.

Definition getNextMessageId (this : t) : Z * t :=
  let this' := {| messageIdCounter := messageIdCounter this + 1 |} in
  (messageIdCounter this', this').

(** Modelled from the spec: the reservation operation
    [preallocateFunctionMessageIds], of which the sources hold the
    signature only.  It reserves [count(name)] sequential message ids,
    drawn from the one counter of [getNextMessageId], and associates them
    with [callId]. *)
Fixpoint nextMessageIds (count : nat) (this : t) : list Z * t :=
  match count with
  | O => ([], this)
  | S count' =>
      let '(id, this1) := getNextMessageId this in
      let '(ids, this2) := nextMessageIds count' this1 in
      (id :: ids, this2)
  end.

Record Preallocator := {
  manager : t;
  reservations : gmap string (list Z)
}.


Section WithCounts.
(** The static table [getFunctionMessageIdCount], not in the sources. *)
Variable getFunctionMessageIdCount : string -> nat.

Definition preallocateFunctionMessageIds
    (functionName callId : string) (st : Preallocator) : list Z * Preallocator :=
  let '(ids, m) :=
    nextMessageIds (getFunctionMessageIdCount functionName) (manager st) in
  (ids, {| manager := m; reservations := <[callId := ids]> (reservations st) |}).

(** The calls that draw ids: a plain [getNextMessageId] (as
    [createMessage] does) or a reservation. *)
Inductive Call :=
| NextId
| Preallocate (functionName callId : string).

(** One call: the ids it draws, in order, and the state after it. *)
Definition step (c : Call) (st : Preallocator) : list Z * Preallocator :=
  match c with
  | NextId =>
      let '(id, m) := getNextMessageId (manager st) in
      ([id], {| manager := m; reservations := reservations st |})
  | Preallocate functionName callId =>
      preallocateFunctionMessageIds functionName callId st
  end.

(** A sequence of calls: all ids drawn, in the order of the calls. *)
Fixpoint run (calls : list Call) (st : Preallocator) : list Z * Preallocator :=
  match calls with
  | [] => ([], st)
  | c :: calls' =>
      let '(ids, st1) := step c st in
      let '(ids', st2) := run calls' st1 in
      (ids ++ ids', st2)
  end.
End WithCounts.

End MessageManager.

(** ** 4.6 UI sequence manager *)

Module UISequenceManager.

(** [sequenceCounters], conversation id to sequence, is a [gmap Z Z]; it
    starts empty. *)
Definition new : gmap Z Z := ∅.

(** [x || 0] on the result of [Map.get]: the missing entry and a stored 0
    both give 0. *)
Definition or_zero (x : option Z) : Z :=
  match x with
  | Some v => if (v =? 0)%Z then 0%Z else v
  | None => 0%Z
  end.

Definition getNextSequence (conversationId : Z) (sequenceCounters : gmap Z Z)
  : Z * gmap Z Z :=
  let current := or_zero (sequenceCounters !! conversationId) in
  let next := (current + 1)%Z in
  (next, <[conversationId := next]> sequenceCounters).

(** The results of a sequence of calls, one per conversation id given. *)
Fixpoint calls (conversationIds : list Z) (sequenceCounters : gmap Z Z)
  : list Z * gmap Z Z :=
  match conversationIds with
  | [] => ([], sequenceCounters)
  | c :: rest =>
      let '(r, m1) := getNextSequence c sequenceCounters in
      let '(rs, m2) := calls rest m1 in
      (r :: rs, m2)
  end.

End UISequenceManager.

(** ** 4.8 Button state tracker *)

Module ButtonStateManager.

Record ButtonState := {
  message_id : Z;
  buttons_run : list string;
  next_button : option string;
  on_deck_button : option string
}.

(** [buttons_run.includes(buttonType)] *)
Definition array_includes (array : list string) (x : string) : bool :=
  existsb (String.eqb x) array.

Definition markButtonAsRun (messageId : Z) (buttonType : string)
    (buttonStates : gmap Z ButtonState) : gmap Z ButtonState :=
  let state :=
    match buttonStates !! messageId with
    | Some stored => stored
    | None =>
        {| message_id := messageId;
           buttons_run := [];
           next_button := None;
           on_deck_button := None |}
    end in
  let state :=
    if negb (array_includes (buttons_run state) buttonType) then
      {| message_id := message_id state;
         buttons_run := buttons_run state ++ [buttonType];
         next_button := next_button state;
         on_deck_button := on_deck_button state |}
    else state in
  <[messageId := state]> buttonStates.

(** Modelled from the spec: [shouldHide], of which the sources hold the
    signature only ([shouldHideButton]).  It is true iff the action kind is
    in the run-set of the message. *)
Definition shouldHide (messageId : Z) (actionKind : string)
    (buttonStates : gmap Z ButtonState) : bool :=
  match buttonStates !! messageId with
  | Some state => array_includes (buttons_run state) actionKind
  | None => false
  end.

End ButtonStateManager.

(** * Predicates used in the statements *)

(** One string occurs inside another. *)
Definition occurs_in (sub s : string) : Prop :=
  exists before after, s = before +:+ sub +:+ after.

(** The error value has an [error] object with the property [error_type]
    equal to [kind]. *)
Definition carries_error_type (error kind : ErrorClassifier.JsValue) : Prop :=
  exists properties properties',
    error = ErrorClassifier.JsObject properties /\
    ErrorClassifier.property properties "error" = ErrorClassifier.JsObject properties' /\
    ErrorClassifier.property properties' "error_type" = kind.




(** The character [c] does not occur in the string. *)
Fixpoint free_of (c : ascii) (s : string) : bool :=
  match s with
  | EmptyString => true
  | String a s' => negb (Ascii.eqb a c) && free_of c s'
  end.

(** Text that no stage of the escape normalizer can start a match in: it
    has no backslash and no [<]. *)
Definition plain (s : string) : bool :=
  free_of Js.backslash s && free_of "<"%char s.

(** A string of white space, the language of [\s*]. *)
Inductive spaces : string -> Prop :=
| spaces_nil : spaces ""
| spaces_cons (c : ascii) (w : string) :
    Js.is_space c = true -> spaces w -> spaces (String c w).

(** The language of [endMarkerPattern]: white space, a quote, white space,
    a comma, white space, the quoted word instructions. *)
Definition end_marker (m : string) : Prop :=
  exists w1 w2 w3,
    spaces w1 /\ spaces w2 /\ spaces w3 /\
    m = w1 +:+ String Js.quote (w2 +:+ String ","%char (w3 +:+ FieldExtractor.instructions_key)).

(** The pattern matches at the start of the string. *)
Definition starts_with_end_marker (s : string) : Prop :=
  exists m after, end_marker m /\ s = m +:+ after.

(** The pattern matches somewhere in the string. *)
Definition contains_end_marker (s : string) : Prop :=
  exists before rest, s = before +:+ rest /\ starts_with_end_marker rest.

(** The string does not start with white space. *)
Definition no_leading_space (s : string) : Prop :=
  match s with
  | EmptyString => True
  | String c _ => Js.is_space c = false
  end.

(** [k] copies of a string, one after the other. *)
Fixpoint copies (k : nat) (s : string) : string :=
  match k with
  | O => EmptyString
  | S k' => s +:+ copies k' s
  end.

(** The number of quote characters of a string. *)
Fixpoint quotes (s : string) : nat :=
  match s with
  | EmptyString => 0
  | String c s' => (if Ascii.eqb c Js.quote then 1 else 0) + quotes s'
  end.

(** The scan of [replace_go] over the closed text [g], when it is decided
    by [g] alone: every position of [g] either starts a match that ends
    inside [g] or differs from the pattern inside [g], and the scan leaves
    [g] with no character of a match still to consume.  The result is what
    the scan puts out for [g]. *)
Fixpoint scan_closed (pat rep : string) (skip : nat) (g : string) : option string :=
  match g with
  | EmptyString => match skip with O => Some EmptyString | S _ => None end
  | String c g' =>
      match skip with
      | S k => scan_closed pat rep k g'
      | O =>
          if String.prefix pat g
          then String.append rep <$> scan_closed pat rep (String.length pat - 1) g'
          else if String.prefix g pat then None
          else String c <$> scan_closed pat rep 0 g'
      end
  end.

(** The escape groups that the stages of the normalizer decode. *)
Inductive escape_group : Type :=
| FourBackslashes
| ThreeBackslashesN
| ThreeBackslashesT
| TwoBackslashesQuote
| BackslashN
| BackslashT.

(** A piece of input text: plain text or one escape group. *)
Inductive piece : Type :=
| Text (u : string)
| Escape (g : escape_group).

(** The characters of a piece in the input. *)
Definition piece_source (p : piece) : string :=
  match p with
  | Text u => u
  | Escape FourBackslashes => "\\\\"
  | Escape ThreeBackslashesN => "\\\n"
  | Escape ThreeBackslashesT => "\\\t"
  | Escape TwoBackslashesQuote => "\\" +:+ Js.str Js.quote
  | Escape BackslashN => "\n"
  | Escape BackslashT => "\t"
  end.

(** What the piece comes out as. *)
Definition piece_decoded (p : piece) : string :=
  match p with
  | Text u => u
  | Escape FourBackslashes => "\"
  | Escape ThreeBackslashesN => "\n"
  | Escape ThreeBackslashesT => "\t"
  | Escape TwoBackslashesQuote => Js.str Js.quote
  | Escape BackslashN => Js.str Js.LF
  | Escape BackslashT => Js.str Js.TAB
  end.

(** The text of a piece has no backslash and no [<]. *)
Definition piece_plain (p : piece) : bool :=
  match p with
  | Text u => plain u
  | Escape _ => true
  end.

(** The pieces one after the other. *)
Fixpoint join (strings : list string) : string :=
  match strings with
  | [] => EmptyString
  | x :: rest => x +:+ join rest
  end.

(** The home directory that [expandTildePath] uses, when there is one:
    [HOME] if it is set and not empty, else [USERPROFILE] if it is set and
    not empty. *)
Definition home_of (env : SettingsManager.Env) : option string :=
  match SettingsManager.or_else (SettingsManager.HOME env) (SettingsManager.USERPROFILE env) with
  | Some homeDir => if (homeDir =? "")%string then None else Some homeDir
  | None => None
  end.

(** The action was run for the message: it is in the run-set stored for
    the message. *)
Definition has_run (buttonStates : gmap Z ButtonStateManager.ButtonState)
    (messageId : Z) (buttonType : string) : Prop :=
  exists state,
    buttonStates !! messageId = Some state /\
    In buttonType (ButtonStateManager.buttons_run state).

(** * Sample data *)

(** The automation settings of the terminal example: auto-accept on, allow
    anything off, allow list [ls], [pwd]. *)
Definition ls_pwd_settings : SettingsManager.AutomationSettings :=
  {| SettingsManager.auto_accept_edits := false;
     SettingsManager.auto_accept_console := false;
     SettingsManager.auto_accept_terminal := true;
     SettingsManager.auto_run_files := false;
     SettingsManager.auto_delete_files := false;
     SettingsManager.auto_accept_console_allow_anything := false;
     SettingsManager.auto_accept_terminal_allow_anything := false;
     SettingsManager.auto_run_files_allow_anything := false;
     SettingsManager.auto_accept_console_allow_list := [];
     SettingsManager.auto_accept_console_deny_list := [];
     SettingsManager.auto_accept_terminal_allow_list := ["ls"; "pwd"];
     SettingsManager.auto_accept_terminal_deny_list := [];
     SettingsManager.auto_run_files_allow_list := [];
     SettingsManager.auto_run_files_deny_list := [] |}.


(** The same with an empty string in the allow list. *)
Definition empty_allow_settings : SettingsManager.AutomationSettings :=
  {| SettingsManager.auto_accept_edits := false;
     SettingsManager.auto_accept_console := false;
     SettingsManager.auto_accept_terminal := true;
     SettingsManager.auto_run_files := false;
     SettingsManager.auto_delete_files := false;
     SettingsManager.auto_accept_console_allow_anything := false;
     SettingsManager.auto_accept_terminal_allow_anything := false;
     SettingsManager.auto_run_files_allow_anything := false;
     SettingsManager.auto_accept_console_allow_list := [];
     SettingsManager.auto_accept_console_deny_list := [];
     SettingsManager.auto_accept_terminal_allow_list := ["ls"; ""];
     SettingsManager.auto_accept_terminal_deny_list := [];
     SettingsManager.auto_run_files_allow_list := [];
     SettingsManager.auto_run_files_deny_list := [] |}.

(** Allow anything on, with an empty string in the deny list. *)
Definition empty_deny_settings : SettingsManager.AutomationSettings :=
  {| SettingsManager.auto_accept_edits := false;
     SettingsManager.auto_accept_console := false;
     SettingsManager.auto_accept_terminal := true;
     SettingsManager.auto_run_files := false;
     SettingsManager.auto_delete_files := false;
     SettingsManager.auto_accept_console_allow_anything := false;
     SettingsManager.auto_accept_terminal_allow_anything := true;
     SettingsManager.auto_run_files_allow_anything := false;
     SettingsManager.auto_accept_console_allow_list := [];
     SettingsManager.auto_accept_console_deny_list := [];
     SettingsManager.auto_accept_terminal_allow_list := [];
     SettingsManager.auto_accept_terminal_deny_list := ["sudo"; ""];
     SettingsManager.auto_run_files_allow_list := [];
     SettingsManager.auto_run_files_deny_list := [] |}.

(** An error value as the backend sends it: an [error] object with the given
    [error_type]. *)
Definition backend_error (error_type : string) : ErrorClassifier.JsValue :=
  ErrorClassifier.JsObject
    [ ("success", ErrorClassifier.JsBoolean false);
      ("error", ErrorClassifier.JsObject
                  [ ("error_type", ErrorClassifier.JsString error_type);
                    ("message", ErrorClassifier.JsString "failed") ]) ].

(** A thrown [Error]: a message and no [error] property. *)
Definition thrown_Error : ErrorClassifier.JsValue :=
  ErrorClassifier.JsObject
    [ ("message", ErrorClassifier.JsString "Stream request failed") ].



(** An environment with a home directory, and automation settings that run
    the files under [~/scripts] and nothing else. *)
Definition home_env : SettingsManager.Env :=
  {| SettingsManager.HOME := Some "/home/ada"; SettingsManager.USERPROFILE := None |}.

Definition scripts_settings : SettingsManager.AutomationSettings :=
  {| SettingsManager.auto_accept_edits := false;
     SettingsManager.auto_accept_console := false;
     SettingsManager.auto_accept_terminal := false;
     SettingsManager.auto_run_files := true;
     SettingsManager.auto_delete_files := false;
     SettingsManager.auto_accept_console_allow_anything := false;
     SettingsManager.auto_accept_terminal_allow_anything := false;
     SettingsManager.auto_run_files_allow_anything := false;
     SettingsManager.auto_accept_console_allow_list := [];
     SettingsManager.auto_accept_console_deny_list := [];
     SettingsManager.auto_accept_terminal_allow_list := [];
     SettingsManager.auto_accept_terminal_deny_list := [];
     SettingsManager.auto_run_files_allow_list := ["~/scripts"];
     SettingsManager.auto_run_files_deny_list := [] |}.

(** * Properties *)

(** ** Strings *)

Section StringFacts.
Import Js.

Lemma append_nil_r (s : string) : s +:+ "" = s.
Proof. induction s as [|c s IH]; simpl; [reflexivity | now rewrite IH]. Qed.

Lemma append_assoc (s t u : string) : (s +:+ t) +:+ u = s +:+ (t +:+ u).
Proof. induction s as [|c s IH]; simpl; [reflexivity | now rewrite IH]. Qed.

Lemma length_append (s t : string) :
  String.length (s +:+ t) = (String.length s + String.length t)%nat.
Proof. induction s as [|c s IH]; simpl; [reflexivity | now rewrite IH]. Qed.

(** [String.prefix p s] holds exactly when [s] starts with [p]. *)
Lemma prefix_spec (p s : string) :
  String.prefix p s = true <-> exists t, s = p +:+ t.
Proof.
  revert s; induction p as [|a p IH]; intros s; simpl.
  - split; [exists s; reflexivity | destruct s; reflexivity].
  - destruct s as [|b s]; simpl.
    + split; [discriminate | intros [t Ht]; discriminate].
    + destruct (Ascii.ascii_dec a b) as [->|Hab].
      * rewrite IH. split; intros [t Ht]; exists t; [now rewrite Ht | now inversion Ht].
      * split; [discriminate | intros [t Ht]; inversion Ht; congruence].
Qed.

Lemma prefix_append (p t : string) : String.prefix p (p +:+ t) = true.
Proof. apply prefix_spec. now exists t. Qed.

Lemma drop_chars_append (p t : string) :
  drop_chars (String.length p) (p +:+ t) = t.
Proof. induction p as [|c p IH]; simpl; [now destruct t | exact IH]. Qed.

Lemma take_chars_append (p t : string) :
  take_chars (String.length p) (p +:+ t) = p.
Proof. induction p as [|c p IH]; simpl; [reflexivity | now rewrite IH]. Qed.

Lemma take_drop_chars (n : nat) (s : string) :
  take_chars n s +:+ drop_chars n s = s.
Proof.
  revert s; induction n as [|n IH]; intros [|c s]; simpl; try reflexivity.
  now rewrite IH.
Qed.

Lemma length_take_chars (n : nat) (s : string) :
  String.length (take_chars n s) = Nat.min n (String.length s).
Proof.
  revert s; induction n as [|n IH]; intros [|c s]; simpl; try reflexivity.
  now rewrite IH.
Qed.

(** [s.substring(0, n)] is the prefix of [s] of length [n]. *)
Lemma substring_0 (s : string) (n : nat) : substring s 0 n = take_chars n s.
Proof. unfold substring. now rewrite Nat.max_0_l, Nat.min_0_l, Nat.sub_0_r. Qed.

(** [includes] decides [occurs_in]. *)
Lemma includes_spec (s sub : string) :
  includes s sub = true <-> occurs_in sub s.
Proof.
  unfold occurs_in. induction s as [|c s IH]; cbn [includes].
  - rewrite orb_false_r, prefix_spec. split.
    + intros [t Ht]. now exists "", t.
    + intros (b & a & H). destruct b; [now exists a | discriminate].
  - rewrite orb_true_iff, IH, prefix_spec. split.
    + intros [[t Ht] | (b & a & H)].
      * now exists "", t.
      * exists (String c b), a. simpl. now rewrite H.
    + intros (b & a & H). destruct b as [|c' b]; simpl in H.
      * left. now exists a.
      * right. inversion H; subst. now exists b, a.
Qed.

Lemma includes_empty (s : string) : includes s "" = true.
Proof. destruct s; reflexivity. Qed.

End StringFacts.

(** ** Frame decoder *)

Section FrameDecoderFacts.
Import Js FrameDecoder.
Context {Json : Type} (JSON_parse : string -> option Json).

(** What reaches [JSON.parse] in [streamQuery]: the line without its six
    character prefix. *)
Lemma streamQuery_line_payload (payload : string) :
  streamQuery_line JSON_parse ("data: " +:+ payload) =
    if (0 <? String.length payload)%nat && negb (payload =? "[DONE]")%string
    then JSON_parse payload else None.
Proof.
  unfold streamQuery_line, startsWith, substring_from.
  rewrite prefix_append.
  change 6%nat with (String.length "data: ").
  rewrite drop_chars_append.
  destruct (_ && _); [destruct (JSON_parse payload) |]; reflexivity.
Qed.

(** What reaches [JSON.parse] in [parseSSELine]: the line without seven
    characters, that is, the payload without its first character. *)
Lemma parseSSELine_payload (payload : string) :
  data <$> parseSSELine JSON_parse ("data: " +:+ payload) =
    let rest := drop_chars 1 payload in
    if (0 <? String.length rest)%nat && negb (rest =? "[DONE]")%string
    then JSON_parse rest else None.
Proof.
  unfold parseSSELine, startsWith, substring_from.
  rewrite prefix_append. simpl.
  destruct (_ && _); [destruct (JSON_parse _) |]; reflexivity.
Qed.

End FrameDecoderFacts.

(** C1 (the two frame decoders agree on every line): fails on the code.  On
    the line [data: {}] the loop of [streamQuery] decodes the payload [{}],
    while [parseSSELine], which strips seven characters after matching a
    prefix of six, decodes [}] and returns [null]. *)
Theorem C1_decoders_disagree
    (Json : Type) (JSON_parse : string -> option Json) (v : Json) :
  JSON_parse "{}" = Some v ->
  JSON_parse "}" = None ->
  FrameDecoder.streamQuery_line JSON_parse "data: {}" = Some v /\
  FrameDecoder.parseSSELine JSON_parse "data: {}" = None.
Proof.
  intros Hobj Hbrace. split.
  - change "data: {}" with ("data: " +:+ "{}").
    rewrite streamQuery_line_payload. simpl. exact Hobj.
  - unfold FrameDecoder.parseSSELine. simpl. now rewrite Hbrace.
Qed.

Lemma C1_decoders_disagree_witness :
  let parse := fun s : string => if (s =? "{}")%string then Some tt else None in
  FrameDecoder.streamQuery_line parse "data: {}" = Some tt /\
  FrameDecoder.parseSSELine parse "data: {}" = None.
Proof.
  intros parse. apply (C1_decoders_disagree unit parse tt); reflexivity.
Defined.

(** ** Automation decision engine *)

Section AutomationFacts.
Import Js SettingsManager.

Lemma matchesPattern_spec (item pattern : string) :
  matchesPattern item pattern = true <->
  occurs_in pattern item \/ occurs_in item pattern.
Proof.
  unfold matchesPattern. now rewrite orb_true_iff, !includes_spec.
Qed.

Lemma isInAllowList_spec (item : string) (allowList : list string) :
  isInAllowList item allowList = true <->
  exists entry, In entry allowList /\
                (occurs_in entry item \/ occurs_in item entry).
Proof.
  unfold isInAllowList. rewrite existsb_exists.
  split; intros (e & Hin & H); exists e; split; auto;
    now apply matchesPattern_spec.
Qed.

Lemma isInDenyList_spec (item : string) (denyList : list string) :
  isInDenyList item denyList = true <->
  exists entry, In entry denyList /\
                (occurs_in entry item \/ occurs_in item entry).
Proof. exact (isInAllowList_spec item denyList). Qed.

Lemma matchesPattern_empty (item : string) : matchesPattern item "" = true.
Proof. unfold matchesPattern. now rewrite includes_empty. Qed.

End AutomationFacts.

(** C5: with [auto_accept_terminal] on and
    [auto_accept_terminal_allow_anything] off,
    [canAutoAcceptTerminalCommand] is true exactly when some entry of the
    allow list occurs in the command or the command occurs in that entry;
    with the allow list [ls], [pwd] it accepts [ls -la] and rejects
    [rm -rf /]. *)
Theorem C5_canAutoAcceptTerminalCommand_allow_list
    (settings : SettingsManager.AutomationSettings) (command : string) :
  SettingsManager.auto_accept_terminal settings = true ->
  SettingsManager.auto_accept_terminal_allow_anything settings = false ->
  (SettingsManager.canAutoAcceptTerminalCommand (Some settings) command = true <->
   exists entry,
     In entry (SettingsManager.auto_accept_terminal_allow_list settings) /\
     (occurs_in entry command \/ occurs_in command entry)) /\
  (SettingsManager.auto_accept_terminal_allow_list settings = ["ls"; "pwd"] ->
   SettingsManager.canAutoAcceptTerminalCommand (Some settings) "ls -la" = true /\
   SettingsManager.canAutoAcceptTerminalCommand (Some settings) "rm -rf /" = false).
Proof.
  intros Hon Hany.
  unfold SettingsManager.canAutoAcceptTerminalCommand; simpl.
  rewrite Hon, Hany; simpl. split.
  - apply isInAllowList_spec.
  - intros ->. split; reflexivity.
Qed.

Lemma C5_witness :
  SettingsManager.canAutoAcceptTerminalCommand (Some ls_pwd_settings) "ls -la" = true /\
  SettingsManager.canAutoAcceptTerminalCommand (Some ls_pwd_settings) "rm -rf /" = false.
Proof.
  apply (C5_canAutoAcceptTerminalCommand_allow_list ls_pwd_settings "pwd");
    reflexivity.
Defined.

(** C6: an empty string in the terminal allow list makes
    [canAutoAcceptTerminalCommand] true for every command when allow anything
    is off; an empty string in the deny list makes it false for every command
    when allow anything is on. *)
Theorem C6_empty_entry_matches_everything
    (allowing denying : SettingsManager.AutomationSettings) (command : string) :
  SettingsManager.auto_accept_terminal allowing = true ->
  SettingsManager.auto_accept_terminal_allow_anything allowing = false ->
  In "" (SettingsManager.auto_accept_terminal_allow_list allowing) ->
  SettingsManager.auto_accept_terminal denying = true ->
  SettingsManager.auto_accept_terminal_allow_anything denying = true ->
  In "" (SettingsManager.auto_accept_terminal_deny_list denying) ->
  SettingsManager.canAutoAcceptTerminalCommand (Some allowing) command = true /\
  SettingsManager.canAutoAcceptTerminalCommand (Some denying) command = false.
Proof.
  intros Hon Hany Hin Hon' Hany' Hin'.
  unfold SettingsManager.canAutoAcceptTerminalCommand; simpl.
  rewrite Hon, Hany, Hon', Hany'; simpl. split.
  - apply existsb_exists. exists "". split; [exact Hin |].
    apply matchesPattern_empty.
  - apply negb_false_iff, existsb_exists. exists "". split; [exact Hin' |].
    apply matchesPattern_empty.
Qed.

Lemma C6_witness :
  SettingsManager.canAutoAcceptTerminalCommand (Some empty_allow_settings) "rm -rf /" = true /\
  SettingsManager.canAutoAcceptTerminalCommand (Some empty_deny_settings) "ls" = false.
Proof.
  split.
  - apply (C6_empty_entry_matches_everything
             empty_allow_settings empty_deny_settings "rm -rf /");
      simpl; auto.
  - apply (C6_empty_entry_matches_everything
             empty_allow_settings empty_deny_settings "ls");
      simpl; auto.
Defined.

(** ** Error classifier *)

Section ErrorClassifierFacts.
Import ErrorClassifier.

Lemma error_type_of_carrier (error kind : JsValue) :
  carries_error_type error kind ->
  optional_get (optional_get error "error") "error_type" = kind.
Proof.
  intros (ps & ps' & -> & Herr & Hkind). simpl. now rewrite Herr.
Qed.

Lemma carrier_of_error_type (error : JsValue) (s : string) :
  optional_get (optional_get error "error") "error_type" = JsString s ->
  carries_error_type error (JsString s).
Proof.
  intros H. destruct error as [| | | | |ps]; try discriminate.
  simpl in H. destruct (property ps "error") as [| | | | |ps'] eqn:E;
    try discriminate.
  now exists ps, ps'.
Qed.

Lemma array_includes_spec (array : list string) (s : string) :
  array_includes array (JsString s) = true <-> In s array.
Proof.
  simpl. rewrite existsb_exists. split.
  - intros (x & Hin & Heq). apply String.eqb_eq in Heq. now subst.
  - intros Hin. exists s. split; [exact Hin | apply String.eqb_refl].
Qed.

End ErrorClassifierFacts.

(** C7: [isRetryableError] returns false exactly when the error carries an
    [error_type] string of the nine terminal kinds; the kind
    AUTHENTICATION_ERROR is not retryable, the kind TIMEOUT and an error
    without a kind are retryable. *)
Theorem C7_isRetryableError_terminal_set (error : ErrorClassifier.JsValue) :
  (ErrorClassifier.isRetryableError error = false <->
   exists kind,
     carries_error_type error (ErrorClassifier.JsString kind) /\
     In kind [ "SUBSCRIPTION_LIMIT_REACHED"; "TRIAL_EXPIRED";
               "PAYMENT_ACTION_REQUIRED"; "USAGE_BILLING_REQUIRED";
               "USAGE_BILLING_LIMIT_REACHED"; "SUBSCRIPTION_EXPIRED";
               "SUBSCRIPTION_PAYMENT_FAILED"; "OVERAGE_PAYMENT_FAILED";
               "AUTHENTICATION_ERROR" ]) /\
  (carries_error_type error (ErrorClassifier.JsString "AUTHENTICATION_ERROR") ->
   ErrorClassifier.isRetryableError error = false) /\
  (carries_error_type error (ErrorClassifier.JsString "TIMEOUT") ->
   ErrorClassifier.isRetryableError error = true) /\
  ((forall kind, ~ carries_error_type error (ErrorClassifier.JsString kind)) ->
   ErrorClassifier.isRetryableError error = true).
Proof.
  assert (Hiff : ErrorClassifier.isRetryableError error = false <->
                 exists kind,
                   carries_error_type error (ErrorClassifier.JsString kind) /\
                   In kind ErrorClassifier.NON_RETRYABLE_ERROR_TYPES).
  { unfold ErrorClassifier.isRetryableError. split.
    - destruct (ErrorClassifier.optional_get _ "error_type") as [| |b|n|s|ps] eqn:E;
        cbn [ErrorClassifier.truthy ErrorClassifier.array_includes negb];
        try discriminate.
      + now destruct b.
      + now destruct (n =? 0)%Z.
      + destruct (s =? "")%string; [discriminate |]. cbn [negb].
        intros H. exists s. split; [now apply carrier_of_error_type |].
        apply array_includes_spec. now apply negb_false_iff.
    - intros (kind & Hc & Hin). rewrite (error_type_of_carrier _ _ Hc).
      assert (Hne : (kind =? "")%string = false).
      { apply String.eqb_neq. intros ->. simpl in Hin.
        repeat (destruct Hin as [Hin | Hin]; [discriminate |]). exact Hin. }
      cbn [ErrorClassifier.truthy]. rewrite Hne. cbn [negb].
      apply negb_false_iff. now apply array_includes_spec. }
  split; [exact Hiff |]. repeat split.
  - intros Hc. apply Hiff. exists "AUTHENTICATION_ERROR". split; [exact Hc |].
    simpl; tauto.
  - intros Hc. unfold ErrorClassifier.isRetryableError.
    now rewrite (error_type_of_carrier _ _ Hc).
  - intros Hnone. apply not_false_is_true. intros E.
    apply Hiff in E. destruct E as (kind & Hc & _). now destruct (Hnone kind).
Qed.

(** The three sample errors of the classifier. *)
Lemma isRetryableError_samples :
  ErrorClassifier.isRetryableError (backend_error "AUTHENTICATION_ERROR") = false /\
  ErrorClassifier.isRetryableError (backend_error "TIMEOUT") = true /\
  ErrorClassifier.isRetryableError thrown_Error = true /\
  ErrorClassifier.isRetryableError ErrorClassifier.JsUndefined = true /\
  List.length ErrorClassifier.NON_RETRYABLE_ERROR_TYPES = 9%nat.
Proof. repeat split. Qed.

Lemma C7_witness :
  ErrorClassifier.isRetryableError (backend_error "AUTHENTICATION_ERROR") = false.
Proof.
  apply (C7_isRetryableError_terminal_set (backend_error "AUTHENTICATION_ERROR")).
  eexists _, _. repeat split.
Defined.

(** ** UI sequence manager *)

Section UISequenceFacts.
Import UISequenceManager.

Lemma or_zero_Some (v : Z) : or_zero (Some v) = v.
Proof. unfold or_zero. destruct (Z.eqb_spec v 0); congruence. Qed.

(** From any state of the counters, the call that follows the calls
    [before] returns the stored counter of its conversation plus the
    number of earlier calls for that conversation plus one. *)
Lemma calls_nth (before after : list Z) (c : Z) (m : gmap Z Z) :
  (calls (before ++ c :: after) m).1 !! List.length before =
    Some (or_zero (m !! c) + 1 + Z.of_nat (count_occ Z.eq_dec before c))%Z.
Proof.
  revert m. induction before as [|b before IH]; intros m.
  - cbn [app calls getNextSequence].
    destruct (calls after _) as [rs m2]. cbn. f_equal. lia.
  - cbn [app calls getNextSequence List.length].
    specialize (IH (<[b := (or_zero (m !! b) + 1)%Z]> m)).
    destruct (calls (before ++ c :: after) _) as [rs m2]. cbn in *.
    etransitivity; [exact IH |]. f_equal. destruct (Z.eq_dec b c) as [->|Hne].
    + rewrite lookup_insert_eq, or_zero_Some. lia.
    + rewrite lookup_insert_ne by exact Hne. lia.
Qed.

End UISequenceFacts.

(** C9: from the empty manager three calls of [getNextSequence] for
    conversation 7 return 1, 2, 3; in any sequence of calls, whatever the
    other conversations called in between, the n-th call for a conversation
    returns n. *)
Theorem C9_getNextSequence_per_conversation :
  (UISequenceManager.calls [7; 7; 7]%Z UISequenceManager.new).1 = [1; 2; 3]%Z /\
  (UISequenceManager.calls [7; 9; 7; 9; 7]%Z UISequenceManager.new).1
    = [1; 1; 2; 2; 3]%Z /\
  (forall (before after : list Z) (conversationId : Z),
     (UISequenceManager.calls (before ++ conversationId :: after)
        UISequenceManager.new).1 !! List.length before =
       Some (Z.of_nat (S (count_occ Z.eq_dec before conversationId)))).
Proof.
  split; [| split].
  - vm_compute. reflexivity.
  - vm_compute. reflexivity.
  - intros before after c. unfold UISequenceManager.new.
    rewrite calls_nth, lookup_empty. cbn [UISequenceManager.or_zero].
    f_equal. lia.
Qed.

(** ** Button state tracker *)

Section ButtonStateFacts.
Import ButtonStateManager.

Lemma array_includes_In (array : list string) (x : string) :
  array_includes array x = true <-> In x array.
Proof.
  unfold array_includes. rewrite existsb_exists. split.
  - intros (y & Hin & Heq). apply String.eqb_eq in Heq. now subst.
  - intros Hin. exists x. split; [exact Hin | apply String.eqb_refl].
Qed.

(** The state stored for the message after [markButtonAsRun]. *)
Lemma markButtonAsRun_lookup (m : Z) (a : string) (store : gmap Z ButtonState) :
  exists state,
    markButtonAsRun m a store !! m = Some state /\
    array_includes (buttons_run state) a = true.
Proof.
  unfold markButtonAsRun.
  set (state0 := match store !! m with Some stored => stored | None => _ end).
  eexists. rewrite lookup_insert_eq. split; [reflexivity |].
  destruct (array_includes (buttons_run state0) a) eqn:E; cbn [negb]; [exact E |].
  cbn [buttons_run]. apply array_includes_In, in_or_app. right. now left.
Qed.

(** Marking an action that is in the run-set already changes nothing. *)
Lemma markButtonAsRun_already_run
    (m : Z) (a : string) (store : gmap Z ButtonState) (state : ButtonState) :
  store !! m = Some state ->
  array_includes (buttons_run state) a = true ->
  markButtonAsRun m a store = store.
Proof.
  intros Hlook Hin. unfold markButtonAsRun. rewrite Hlook, Hin. cbn [negb].
  now apply insert_id.
Qed.

End ButtonStateFacts.

(** C10: after [markButtonAsRun m a] the action [a] is in [buttons_run] of
    message [m] and [shouldHide m a] is true; a second [markButtonAsRun m a]
    leaves the store exactly as the first left it. *)
Theorem C10_markButtonAsRun_idempotent
    (m : Z) (a : string) (store : gmap Z ButtonStateManager.ButtonState) :
  (exists state,
     ButtonStateManager.markButtonAsRun m a store !! m = Some state /\
     In a (ButtonStateManager.buttons_run state)) /\
  ButtonStateManager.shouldHide m a (ButtonStateManager.markButtonAsRun m a store) = true /\
  ButtonStateManager.markButtonAsRun m a (ButtonStateManager.markButtonAsRun m a store)
    = ButtonStateManager.markButtonAsRun m a store.
Proof.
  destruct (markButtonAsRun_lookup m a store) as (state & Hlook & Hin).
  split; [| split].
  - exists state. split; [exact Hlook | now apply array_includes_In].
  - unfold ButtonStateManager.shouldHide. now rewrite Hlook.
  - now apply (markButtonAsRun_already_run m a _ state).
Qed.

(** ** Message identifiers *)

Section MessageManagerFacts.
Import MessageManager.


Variable counts : string -> nat.






End MessageManagerFacts.



(** The first call of a fresh manager returns 1, and each call returns one
    more than the call before it. *)
Lemma getNextMessageId_successor (this : MessageManager.t) :
  (MessageManager.getNextMessageId MessageManager.new).1 = 1%Z /\
  (MessageManager.getNextMessageId (MessageManager.getNextMessageId this).2).1
    = ((MessageManager.getNextMessageId this).1 + 1)%Z.
Proof. split; reflexivity. Qed.

(** ** Escape normalizer *)

Section ReplaceFacts.
Import Js.

(** The characters of a match that are still to be consumed are dropped. *)
Lemma replace_go_skip (pat rep consumed rest : string) :
  replace_go pat rep (String.length consumed) (consumed +:+ rest)
  = replace_go pat rep 0 rest.
Proof.
  induction consumed as [|c consumed IH]; cbn [String.length String.append].
  - reflexivity.
  - cbn [replace_go]. exact IH.
Qed.

(** A match at the start of the text is replaced, and the scan goes on
    after it. *)
Lemma replace_match (a : ascii) (pat rep rest : string) :
  replace (String a pat) rep (String a pat +:+ rest)
  = rep +:+ replace (String a pat) rep rest.
Proof.
  unfold replace. cbn [String.append]. cbn [replace_go].
  change (String a (pat +:+ rest)) with (String a pat +:+ rest).
  rewrite prefix_append. cbn [String.length].
  replace (S (String.length pat) - 1)%nat with (String.length pat) by lia.
  now rewrite replace_go_skip.
Qed.

(** No match starts in text that is free of the first character of the
    pattern. *)
Lemma replace_free_prefix (a : ascii) (pat rep u rest : string) :
  free_of a u = true ->
  replace (String a pat) rep (u +:+ rest)
  = u +:+ replace (String a pat) rep rest.
Proof.
  intros Hfree. unfold replace.
  induction u as [|c u IH]; cbn [String.append]; [reflexivity |].
  cbn [free_of] in Hfree. apply andb_true_iff in Hfree as [Hc Hu].
  cbn [replace_go String.prefix].
  destruct (Ascii.ascii_dec a c) as [->|Hne].
  - now rewrite Ascii.eqb_refl in Hc.
  - now rewrite (IH Hu).
Qed.

End ReplaceFacts.

Section EscapeNormalizerFacts.
Import Js EscapeNormalizer.

Lemma plain_free (u : string) :
  plain u = true -> free_of backslash u = true /\ free_of "<"%char u = true.
Proof. unfold plain. now rewrite andb_true_iff. Qed.

(** The sentinel of the backslash goes through the stages between the one
    that introduces it and the one that resolves it. *)
Lemma sentinel_BS_free : free_of backslash "<<<BS>>>" = true.
Proof. reflexivity. Qed.

Lemma sentinel_BS_not_NL (rep rest : string) :
  replace "<<<NL>>>" rep ("<<<BS>>>" +:+ rest)
  = "<<<BS>>>" +:+ replace "<<<NL>>>" rep rest.
Proof. reflexivity. Qed.

Lemma sentinel_BS_not_TAB (rep rest : string) :
  replace "<<<TAB>>>" rep ("<<<BS>>>" +:+ rest)
  = "<<<BS>>>" +:+ replace "<<<TAB>>>" rep rest.
Proof. reflexivity. Qed.

Lemma sentinel_BS_not_DQ (rep rest : string) :
  replace "<<<DQ>>>" rep ("<<<BS>>>" +:+ rest)
  = "<<<BS>>>" +:+ replace "<<<DQ>>>" rep rest.
Proof. reflexivity. Qed.

(** A group of four backslashes after plain text becomes one backslash,
    and what follows the group is normalized on its own. *)
Lemma unescapeStreamingJson_group (u rest : string) :
  plain u = true ->
  unescapeStreamingJson (u +:+ "\\\\" +:+ rest)
  = u +:+ "\" +:+ unescapeStreamingJson rest.
Proof.
  intros Hplain. destruct (plain_free u Hplain) as [Hbs Hlt].
  unfold unescapeStreamingJson, pipe.
  change ("\\" +:+ str quote) with (String backslash (String backslash (str quote))).
  rewrite (replace_free_prefix _ _ _ u) by exact Hbs.
  rewrite replace_match.
  do 5 (rewrite (replace_free_prefix _ _ _ u) by exact Hbs;
        rewrite (replace_free_prefix _ _ _ "<<<BS>>>") by exact sentinel_BS_free).
  rewrite (replace_free_prefix _ _ _ u) by exact Hlt.
  rewrite sentinel_BS_not_NL.
  rewrite (replace_free_prefix _ _ _ u) by exact Hlt.
  rewrite sentinel_BS_not_TAB.
  rewrite (replace_free_prefix _ _ _ u) by exact Hlt.
  rewrite sentinel_BS_not_DQ.
  rewrite (replace_free_prefix _ _ _ u) by exact Hlt.
  rewrite replace_match.
  reflexivity.
Qed.

(** A run of [4 * k] backslashes comes out as [k] backslashes. *)
Lemma unescapeStreamingJson_copies (k : nat) :
  unescapeStreamingJson (copies k "\\\\") = copies k "\".
Proof.
  induction k as [|k IH]; cbn [copies]; [reflexivity |].
  change ("\\\\" +:+ copies k "\\\\") with ("" +:+ "\\\\" +:+ copies k "\\\\").
  rewrite (unescapeStreamingJson_group "" (copies k "\\\\")) by reflexivity.
  cbn [String.append]. now rewrite IH.
Qed.

End EscapeNormalizerFacts.

(** C2 as stated (two consecutive backslashes become one backslash) fails:
    two backslashes come out as two backslashes. *)
Lemma C2_counterexample :
  EscapeNormalizer.unescapeStreamingJson "\\" = "\\" /\
  EscapeNormalizer.unescapeStreamingJson "\\" <> "\".
Proof. split; [reflexivity | discriminate]. Qed.

(** C2, amended: the first stage matches four consecutive backslashes.  A
    group of four backslashes that follows text without a backslash and
    without [<] comes out, through the sentinel of the first stage, as one
    backslash, and the text after the group is normalized on its own; four
    backslashes alone give one backslash, two backslashes are left as they
    are. *)
Theorem C2_four_backslashes_to_one (u rest : string) :
  plain u = true ->
  EscapeNormalizer.unescapeStreamingJson (u +:+ "\\\\" +:+ rest)
    = u +:+ "\" +:+ EscapeNormalizer.unescapeStreamingJson rest /\
  Js.replace "\\\\" "<<<BS>>>" (u +:+ "\\\\" +:+ rest)
    = u +:+ "<<<BS>>>" +:+ Js.replace "\\\\" "<<<BS>>>" rest /\
  EscapeNormalizer.unescapeStreamingJson "\\\\" = "\" /\
  EscapeNormalizer.unescapeStreamingJson "\\" = "\\".
Proof.
  intros Hplain. split; [| split; [| split]].
  - now apply unescapeStreamingJson_group.
  - destruct (plain_free u Hplain) as [Hbs _].
    rewrite (replace_free_prefix _ _ _ u) by exact Hbs.
    now rewrite replace_match.
  - reflexivity.
  - reflexivity.
Qed.

Lemma C2_witness :
  EscapeNormalizer.unescapeStreamingJson ("C:" +:+ "\\\\" +:+ "temp")
    = "C:" +:+ "\" +:+ EscapeNormalizer.unescapeStreamingJson "temp".
Proof.
  apply (C2_four_backslashes_to_one "C:" "temp"). reflexivity.
Defined.

(** ** Incremental field extractor *)

Section EndMarkerFacts.
Import Js FieldExtractor.

Lemma skip_spaces_no_leading_space (s : string) :
  no_leading_space (skip_spaces s).
Proof.
  induction s as [|c s IH]; cbn [skip_spaces]; [exact I |].
  destruct (is_space c) eqn:E; [exact IH | exact E].
Qed.

(** [skip_spaces] removes a prefix of white space. *)
Lemma skip_spaces_split (s : string) :
  exists w, spaces w /\ s = w +:+ skip_spaces s.
Proof.
  induction s as [|c s (w & Hw & Hs)]; cbn [skip_spaces].
  - exists "". split; [constructor | reflexivity].
  - destruct (is_space c) eqn:E.
    + exists (String c w). split; [now constructor |].
      cbn [String.append]. now rewrite <- Hs.
    + exists "". split; [constructor | reflexivity].
Qed.

(** It removes all of it. *)
Lemma skip_spaces_append (w rest : string) :
  spaces w -> no_leading_space rest -> skip_spaces (w +:+ rest) = rest.
Proof.
  intros Hw Hrest. induction Hw as [|c w Hc Hw IH]; cbn [String.append].
  - destruct rest as [|c rest]; [reflexivity |].
    cbn in Hrest. cbn [skip_spaces]. now rewrite Hrest.
  - cbn [skip_spaces]. now rewrite Hc.
Qed.

Lemma ascii_eqb_true (a b : ascii) : Ascii.eqb a b = true -> a = b.
Proof. apply Ascii.eqb_eq. Qed.

(** [endMarkerPattern_at] decides whether the pattern matches at the
    start. *)
Lemma endMarkerPattern_at_spec (s : string) :
  endMarkerPattern_at s = true <-> starts_with_end_marker s.
Proof.
  unfold endMarkerPattern_at, starts_with_end_marker, end_marker. split.
  - intros H.
    destruct (skip_spaces_split s) as (w1 & Hw1 & Hs).
    destruct (skip_spaces s) as [|c1 s1]; [discriminate |].
    destruct (Ascii.eqb c1 quote) eqn:E1; [| discriminate].
    apply ascii_eqb_true in E1; subst c1.
    destruct (skip_spaces_split s1) as (w2 & Hw2 & Hs1).
    destruct (skip_spaces s1) as [|c2 s2]; [discriminate |].
    destruct (Ascii.eqb c2 ","%char) eqn:E2; [| discriminate].
    apply ascii_eqb_true in E2; subst c2.
    destruct (skip_spaces_split s2) as (w3 & Hw3 & Hs2).
    apply prefix_spec in H. destruct H as [after Hafter].
    exists (w1 +:+ String quote (w2 +:+ String ","%char (w3 +:+ instructions_key))), after.
    split; [now exists w1, w2, w3 |].
    rewrite Hs, Hs1, Hs2, Hafter at 1.
    rewrite !append_assoc. cbn [String.append].
    rewrite !append_assoc. cbn [String.append].
    now rewrite !append_assoc.
  - intros (m & after & (w1 & w2 & w3 & Hw1 & Hw2 & Hw3 & ->) & ->).
    rewrite !append_assoc. cbn [String.append].
    rewrite skip_spaces_append by (assumption || reflexivity).
    rewrite Ascii.eqb_refl.
    rewrite !append_assoc. cbn [String.append].
    rewrite skip_spaces_append by (assumption || reflexivity).
    rewrite Ascii.eqb_refl.
    rewrite !append_assoc.
    rewrite skip_spaces_append by (assumption || reflexivity).
    apply prefix_append.
Qed.

(** [match_endMarkerPattern] finds a match whenever there is one. *)
Lemma match_endMarkerPattern_None (s : string) :
  match_endMarkerPattern s = None <-> ~ contains_end_marker s.
Proof.
  unfold contains_end_marker. induction s as [|c s IH]; cbn [match_endMarkerPattern].
  - destruct (endMarkerPattern_at "") eqn:E.
    + split; [discriminate |]. intros H. exfalso. apply H.
      exists "", "". split; [reflexivity |]. now apply endMarkerPattern_at_spec.
    + split; [| reflexivity]. intros _ (before & rest & Hs & Hm).
      destruct before; [| discriminate]. cbn in Hs. subst rest.
      apply endMarkerPattern_at_spec in Hm. congruence.
  - destruct (endMarkerPattern_at (String c s)) eqn:E.
    + split; [discriminate |]. intros H. exfalso. apply H.
      exists "", (String c s). split; [reflexivity |].
      now apply endMarkerPattern_at_spec.
    + rewrite fmap_None, IH. split.
      * intros Hnone (before & rest & Hs & Hm).
        destruct before as [|b before]; cbn in Hs.
        -- subst rest. apply endMarkerPattern_at_spec in Hm. congruence.
        -- inversion Hs; subst. apply Hnone. now exists before, rest.
      * intros Hnone (before & rest & Hs & Hm). apply Hnone.
        exists (String c before), rest. split; [| exact Hm].
        cbn [String.append]. now rewrite Hs.
Qed.

(** The index it returns is the leftmost position of a match. *)
Lemma match_endMarkerPattern_Some (s : string) (index : nat) :
  match_endMarkerPattern s = Some index ->
  endMarkerPattern_at (drop_chars index s) = true /\
  forall j, (j < index)%nat -> endMarkerPattern_at (drop_chars j s) = false.
Proof.
  revert index. induction s as [|c s IH]; intros index;
    cbn [match_endMarkerPattern].
  - destruct (endMarkerPattern_at "") eqn:E; [| discriminate].
    intros [= <-]. split; [exact E | intros j Hj; lia].
  - destruct (endMarkerPattern_at (String c s)) eqn:E.
    + intros [= <-]. split; [exact E | intros j Hj; lia].
    + destruct (match_endMarkerPattern s) as [i|]; [| discriminate].
      intros [= <-]. destruct (IH i eq_refl) as [Hat Hbefore].
      split; [exact Hat |]. intros [|j] Hj; [exact E |].
      cbn [drop_chars]. apply Hbefore. lia.
Qed.

(** A match stays a match when the string grows. *)
Lemma contains_end_marker_append (s ext : string) :
  contains_end_marker s -> contains_end_marker (s +:+ ext).
Proof.
  intros (before & rest & -> & m & after & Hm & ->).
  exists before, (m +:+ after +:+ ext). split.
  - now rewrite !append_assoc.
  - now exists m, (after +:+ ext).
Qed.

End EndMarkerFacts.

(** *** Once found, the end marker stays where it is *)

Section EndMarkerStable.
Import Js FieldExtractor.

Lemma quotes_append (s t : string) : quotes (s +:+ t) = (quotes s + quotes t)%nat.
Proof.
  induction s as [|c s IH]; cbn [String.append quotes]; [reflexivity |].
  rewrite IH. lia.
Qed.

Lemma quotes_spaces (w : string) : spaces w -> quotes w = 0%nat.
Proof.
  induction 1 as [|c w Hc _ IH]; cbn [quotes]; [reflexivity |].
  rewrite IH. destruct (Ascii.eqb_spec c quote) as [->|_]; [discriminate | reflexivity].
Qed.

(** A match has three quote characters and ends with one. *)
Lemma end_marker_quotes (m : string) : end_marker m -> quotes m = 3%nat.
Proof.
  intros (w1 & w2 & w3 & Hw1 & Hw2 & Hw3 & ->).
  rewrite quotes_append. cbn [quotes]. rewrite quotes_append. cbn [quotes].
  rewrite quotes_append, !quotes_spaces by assumption. reflexivity.
Qed.

Lemma end_marker_last (m : string) :
  end_marker m -> exists m0, m = m0 +:+ str quote.
Proof.
  intros (w1 & w2 & w3 & _ & _ & _ & ->).
  exists (w1 +:+ String quote (w2 +:+ String ","%char
                                 (w3 +:+ String quote "instructions"))).
  rewrite !append_assoc. cbn [String.append].
  rewrite !append_assoc. cbn [String.append].
  now rewrite !append_assoc.
Qed.

(** Two ways to cut one string: one of the first parts is a prefix of the
    other. *)
Lemma append_eq_split (s ext m after : string) :
  s +:+ ext = m +:+ after ->
  (exists t, s = m +:+ t) \/ (exists c t, m = s +:+ String c t).
Proof.
  revert m. induction s as [|a s IH]; intros m H.
  - destruct m as [|c m]; [left; now exists "" | right; now exists c, m].
  - destruct m as [|c m]; [left; now exists (String a s) |].
    cbn [String.append] in H. injection H as -> H.
    destruct (IH m H) as [[t ->] | (c' & t & ->)].
    + left. now exists t.
    + right. now exists c', t.
Qed.

(** A non-empty end of a string that ends with a quote has a quote. *)
Lemma quotes_tail (s m0 : string) (c : ascii) (t : string) :
  s +:+ String c t = m0 +:+ str quote -> (1 <= quotes (String c t))%nat.
Proof.
  revert m0. induction s as [|a s IH]; intros m0 H; cbn [String.append] in H.
  - rewrite H, quotes_append. cbn. lia.
  - destruct m0 as [|b m0]; cbn [String.append str] in H.
    + injection H as _ H. destruct s; discriminate.
    + injection H as _ H. exact (IH m0 H).
Qed.

(** A string that holds a match is not a proper prefix of a match. *)
Lemma no_match_across (s ext : string) :
  contains_end_marker s ->
  starts_with_end_marker (s +:+ ext) ->
  starts_with_end_marker s.
Proof.
  intros (before & rest & Hs & m' & after' & Hm' & ->) (m & after & Hm & H).
  destruct (append_eq_split _ _ _ _ H) as [[t Ht] | (c & t & Ht)].
  - now exists m, t.
  - exfalso.
    pose proof (end_marker_quotes m Hm) as Hq.
    destruct (end_marker_last m Hm) as [m0 Hlast].
    rewrite Ht in Hq, Hlast. apply quotes_tail in Hlast.
    rewrite quotes_append in Hq.
    rewrite Hs, !quotes_append, (end_marker_quotes m' Hm') in Hq. lia.
Qed.

Lemma match_endMarkerPattern_contains (s : string) (index : nat) :
  match_endMarkerPattern s = Some index -> contains_end_marker s.
Proof.
  intros H. apply match_endMarkerPattern_Some in H as [Hat _].
  exists (take_chars index s), (drop_chars index s).
  split; [now rewrite take_drop_chars | now apply endMarkerPattern_at_spec].
Qed.

(** The leftmost match of a string is the leftmost match of every
    extension of the string. *)
Lemma match_endMarkerPattern_append (s ext : string) (index : nat) :
  match_endMarkerPattern s = Some index ->
  match_endMarkerPattern (s +:+ ext) = Some index.
Proof.
  revert index. induction s as [|c s IH]; intros index.
  - cbn [match_endMarkerPattern]. discriminate.
  - intros H. pose proof (match_endMarkerPattern_contains _ _ H) as Hcont.
    cbn [match_endMarkerPattern] in H.
    cbn [String.append match_endMarkerPattern].
    change (String c (s +:+ ext)) with (String c s +:+ ext).
    destruct (endMarkerPattern_at (String c s)) eqn:E.
    + assert (Hext : endMarkerPattern_at (String c s +:+ ext) = true).
      { apply endMarkerPattern_at_spec.
        apply endMarkerPattern_at_spec in E as (m & after & Hm & ->).
        exists m, (after +:+ ext). split; [exact Hm | now rewrite append_assoc]. }
      now rewrite Hext.
    + assert (Hext : endMarkerPattern_at (String c s +:+ ext) = false).
      { apply not_true_is_false. intros Habs.
        apply endMarkerPattern_at_spec in Habs.
        apply (no_match_across _ _ Hcont) in Habs.
        apply endMarkerPattern_at_spec in Habs. congruence. }
      rewrite Hext.
      destruct (match_endMarkerPattern s) as [i|]; [| discriminate].
      now rewrite (IH i eq_refl).
Qed.

End EndMarkerStable.

Section FieldExtractorFacts.
Import Js FieldExtractor.

Lemma take_chars_all (n : nat) (s : string) :
  (String.length s <= n)%nat -> take_chars n s = s.
Proof.
  revert s; induction n as [|n IH]; intros [|c s] Hlen; cbn in *;
    try reflexivity; try lia.
  rewrite IH by lia. reflexivity.
Qed.


(** Without an end marker the result holds back the last [BUFFER_SIZE]
    characters. *)
Lemma extractStreamContent_no_marker (accumulated currentStreamed : string) :
  ~ contains_end_marker accumulated ->
  extractStreamContent accumulated currentStreamed =
    {| content := take_chars (String.length accumulated - 20) accumulated;
       endReached := false |}.
Proof.
  intros Hnone. apply match_endMarkerPattern_None in Hnone.
  unfold extractStreamContent, BUFFER_SIZE. rewrite Hnone.
  destruct (Nat.ltb_spec 20 (String.length accumulated)) as [Hlt|Hge].
  - now rewrite substring_0.
  - replace (String.length accumulated - 20)%nat with 0%nat by lia.
    reflexivity.
Qed.

(** The content is always a prefix of the accumulated string. *)
Lemma extractStreamContent_prefix (accumulated currentStreamed : string) :
  exists rest,
    accumulated = content (extractStreamContent accumulated currentStreamed) +:+ rest.
Proof.
  unfold extractStreamContent.
  destruct (match_endMarkerPattern accumulated) as [index|].
  - cbn [content]. rewrite substring_0.
    exists (drop_chars index accumulated). now rewrite take_drop_chars.
  - destruct (BUFFER_SIZE <? String.length accumulated)%nat; cbn [content].
    + rewrite substring_0. eexists. now rewrite take_drop_chars.
    + now exists accumulated.
Qed.

(** Once the end marker is in the accumulated string, every later call
    returns the same final content. *)
Lemma extractStreamContent_final
    (accumulated extension currentStreamed1 currentStreamed2 : string) :
  endReached (extractStreamContent accumulated currentStreamed1) = true ->
  extractStreamContent (accumulated +:+ extension) currentStreamed2
  = extractStreamContent accumulated currentStreamed1.
Proof.
  unfold extractStreamContent.
  destruct (match_endMarkerPattern accumulated) as [index|] eqn:E.
  - intros _. rewrite (match_endMarkerPattern_append _ extension _ E).
    f_equal. rewrite !substring_0.
    apply match_endMarkerPattern_Some in E as [Hat _].
    assert (Hlen : (index <= String.length accumulated)%nat).
    { destruct (Nat.le_gt_cases index (String.length accumulated)) as [H|H];
        [exact H |].
      assert (Hdrop : drop_chars index accumulated = "").
      { clear Hat. revert accumulated H.
        induction index as [|index IH]; intros [|c acc] H; cbn in *;
          try reflexivity; try lia.
        apply IH. lia. }
      rewrite Hdrop in Hat. discriminate. }
    clear Hat. revert accumulated Hlen.
    induction index as [|index IH]; intros [|c acc] Hlen; cbn in *;
      try reflexivity; try lia.
    rewrite IH by lia. reflexivity.
  - now destruct (BUFFER_SIZE <? String.length accumulated)%nat.
Qed.

End FieldExtractorFacts.

(** C4: for an accumulated string without the end marker,
    [extractStreamContent] returns the empty content when the string has at
    most 20 characters and the string without its last 20 characters when it
    has more; [endReached] is false in both cases. *)
Theorem C4_extractStreamContent_safety_margin
    (accumulated currentStreamed : string) :
  ~ contains_end_marker accumulated ->
  ((String.length accumulated <= 20)%nat ->
   FieldExtractor.extractStreamContent accumulated currentStreamed =
     {| FieldExtractor.content := ""; FieldExtractor.endReached := false |}) /\
  ((20 < String.length accumulated)%nat ->
   exists emitted held_back,
     accumulated = emitted +:+ held_back /\
     String.length held_back = 20%nat /\
     FieldExtractor.extractStreamContent accumulated currentStreamed =
       {| FieldExtractor.content := emitted; FieldExtractor.endReached := false |}).
Proof.
  intros Hnone.
  rewrite (extractStreamContent_no_marker accumulated currentStreamed Hnone).
  split.
  - intros Hle.
    replace (String.length accumulated - 20)%nat with 0%nat by lia. reflexivity.
  - intros Hgt.
    exists (Js.take_chars (String.length accumulated - 20) accumulated),
           (Js.drop_chars (String.length accumulated - 20) accumulated).
    split; [now rewrite take_drop_chars | split; [| reflexivity]].
    pose proof (length_append
                  (Js.take_chars (String.length accumulated - 20) accumulated)
                  (Js.drop_chars (String.length accumulated - 20) accumulated)) as Hlen.
    rewrite take_drop_chars, length_take_chars in Hlen. lia.
Qed.

Lemma C4_witness :
  FieldExtractor.extractStreamContent "Hello, world" "" =
    {| FieldExtractor.content := ""; FieldExtractor.endReached := false |} /\
  exists emitted held_back,
    "The quick brown fox jumps" = emitted +:+ held_back /\
    String.length held_back = 20%nat /\
    FieldExtractor.extractStreamContent "The quick brown fox jumps" "" =
      {| FieldExtractor.content := emitted; FieldExtractor.endReached := false |}.
Proof.
  split.
  - apply (C4_extractStreamContent_safety_margin "Hello, world" "").
    + apply match_endMarkerPattern_None. reflexivity.
    + cbn. lia.
  - apply (C4_extractStreamContent_safety_margin "The quick brown fox jumps" "").
    + apply match_endMarkerPattern_None. reflexivity.
    + cbn. lia.
Defined.



(** The remaining case, a growth that brings the end marker in: when the
    marker has more than 20 characters of white space, the earlier call has
    returned a part of it already. *)
Lemma extractStreamContent_marker_arrives :
  let spaces30 := "                              " in
  let accumulated := "abc" +:+ Js.str Js.quote +:+ spaces30 in
  let extension := "," +:+ FieldExtractor.instructions_key in
  FieldExtractor.content (FieldExtractor.extractStreamContent accumulated "")
    = "abc" +:+ Js.str Js.quote +:+ "          " /\
  FieldExtractor.extractStreamContent (accumulated +:+ extension) ""
    = {| FieldExtractor.content := "abc"; FieldExtractor.endReached := true |}.
Proof. split; reflexivity. Qed.


(** * Further properties of the same code *)

(** ** Incremental field extractor: the end marker *)

Section EndMarkerPosition.
Import Js FieldExtractor.

Lemma end_marker_nonempty (m : string) : end_marker m -> (1 <= String.length m)%nat.
Proof.
  intros (w1 & w2 & w3 & _ & _ & _ & ->).
  rewrite length_append. cbn [String.length]. lia.
Qed.

(** Two prefixes of one string: the shorter is a prefix of the longer. *)
Lemma append_eq_prefix (a x b y : string) :
  a +:+ x = b +:+ y ->
  (String.length a <= String.length b)%nat ->
  exists d, b = a +:+ d.
Proof.
  intros H Hlen. destruct (append_eq_split _ _ _ _ H) as [[t Ht] | (c & t & Ht)].
  - assert (t = "") as ->.
    { apply (f_equal String.length) in Ht. rewrite length_append in Ht.
      destruct t; [reflexivity | cbn in Ht; lia]. }
    rewrite append_nil_r in Ht. subst a. exists "". now rewrite append_nil_r.
  - now exists (String c t).
Qed.

Lemma match_endMarkerPattern_length (s : string) (index : nat) :
  match_endMarkerPattern s = Some index -> (index <= String.length s)%nat.
Proof.
  revert index. induction s as [|c s IH]; intros index; cbn [match_endMarkerPattern].
  - destruct (endMarkerPattern_at ""); [intros [= <-]; cbn; lia | discriminate].
  - destruct (endMarkerPattern_at (String c s)); [intros [= <-]; cbn; lia |].
    destruct (match_endMarkerPattern s) as [i|]; [| discriminate].
    intros [= <-]. specialize (IH i eq_refl). cbn. lia.
Qed.

(** No match starts before the index that [match_endMarkerPattern]
    returns. *)
Lemma match_endMarkerPattern_leftmost (s before rest : string) (index : nat) :
  match_endMarkerPattern s = Some index ->
  s = before +:+ rest ->
  starts_with_end_marker rest ->
  (index <= String.length before)%nat.
Proof.
  intros Hm -> Hrest. apply match_endMarkerPattern_Some in Hm as [_ Hleft].
  destruct (Nat.le_gt_cases index (String.length before)) as [H|H]; [exact H |].
  specialize (Hleft _ H). rewrite drop_chars_append in Hleft.
  apply endMarkerPattern_at_spec in Hrest. congruence.
Qed.

Lemma starts_with_end_marker_append (s ext : string) :
  starts_with_end_marker s -> starts_with_end_marker (s +:+ ext).
Proof.
  intros (m & after & Hm & ->). exists m, (after +:+ ext).
  split; [exact Hm | now rewrite append_assoc].
Qed.

(** What [extractStreamContent] returns when the pattern matches. *)
Lemma extractStreamContent_Some (accumulated currentStreamed : string) (index : nat) :
  match_endMarkerPattern accumulated = Some index ->
  extractStreamContent accumulated currentStreamed =
    {| content := take_chars index accumulated; endReached := true |} /\
  String.length (take_chars index accumulated) = index.
Proof.
  intros H. unfold extractStreamContent. rewrite H, substring_0.
  split; [reflexivity |]. rewrite length_take_chars.
  apply match_endMarkerPattern_length in H. lia.
Qed.

Lemma endReached_match (accumulated currentStreamed : string) :
  endReached (extractStreamContent accumulated currentStreamed) = true ->
  exists index, match_endMarkerPattern accumulated = Some index.
Proof.
  unfold extractStreamContent.
  destruct (match_endMarkerPattern accumulated) as [index|]; [now exists index |].
  now destruct (BUFFER_SIZE <? String.length accumulated)%nat.
Qed.

End EndMarkerPosition.

(** X1: [endReached] is true exactly when the end marker pattern occurs
    somewhere in the accumulated string. *)
Theorem X1_endReached_iff_marker (accumulated currentStreamed : string) :
  FieldExtractor.endReached
    (FieldExtractor.extractStreamContent accumulated currentStreamed) = true
  <-> contains_end_marker accumulated.
Proof.
  split.
  - intros H. apply endReached_match in H as [index H].
    now apply (match_endMarkerPattern_contains _ index).
  - intros H. destruct (FieldExtractor.match_endMarkerPattern accumulated)
      as [index|] eqn:E.
    + now rewrite (proj1 (extractStreamContent_Some _ currentStreamed _ E)).
    + apply match_endMarkerPattern_None in E. contradiction.
Qed.

(** The content of a finished field is the text in front of the leftmost
    match. *)
Lemma endReached_leftmost (accumulated currentStreamed : string) :
  FieldExtractor.endReached
    (FieldExtractor.extractStreamContent accumulated currentStreamed) = true ->
  (exists m after,
     end_marker m /\
     accumulated =
       FieldExtractor.content
         (FieldExtractor.extractStreamContent accumulated currentStreamed)
       +:+ m +:+ after) /\
  (forall before rest,
     accumulated = before +:+ rest ->
     starts_with_end_marker rest ->
     (String.length
        (FieldExtractor.content
           (FieldExtractor.extractStreamContent accumulated currentStreamed))
      <= String.length before)%nat).
Proof.
  intros H. apply endReached_match in H as [index H].
  destruct (extractStreamContent_Some _ currentStreamed _ H) as [-> Hlen].
  cbn [FieldExtractor.content]. split.
  - pose proof H as Hm. apply match_endMarkerPattern_Some in Hm as [Hat _].
    apply endMarkerPattern_at_spec in Hat as (m & after & Hm & Hdrop).
    exists m, after. split; [exact Hm |].
    now rewrite <- Hdrop, take_drop_chars.
  - intros before rest Hs Hrest. rewrite Hlen.
    exact (match_endMarkerPattern_leftmost _ _ _ _ H Hs Hrest).
Qed.

(** X2: when the end is reached, the content is the text in front of the
    leftmost match: a match follows the content at once, and no match starts
    inside the content. *)
Theorem X2_content_ends_at_leftmost_marker (accumulated currentStreamed : string) :
  FieldExtractor.endReached
    (FieldExtractor.extractStreamContent accumulated currentStreamed) = true ->
  (exists m after,
     end_marker m /\
     accumulated =
       FieldExtractor.content
         (FieldExtractor.extractStreamContent accumulated currentStreamed)
       +:+ m +:+ after) /\
  (forall before rest,
     accumulated = before +:+ rest ->
     starts_with_end_marker rest ->
     (String.length
        (FieldExtractor.content
           (FieldExtractor.extractStreamContent accumulated currentStreamed))
      <= String.length before)%nat).
Proof. exact (endReached_leftmost accumulated currentStreamed). Qed.

Lemma X2_witness :
  exists m after,
    end_marker m /\
    "Hi" +:+ FieldExtractor.instructions_key +:+ "," +:+ FieldExtractor.instructions_key =
      FieldExtractor.content
        (FieldExtractor.extractStreamContent
           ("Hi" +:+ FieldExtractor.instructions_key +:+ "," +:+ FieldExtractor.instructions_key) "")
      +:+ m +:+ after.
Proof.
  apply (X2_content_ends_at_leftmost_marker
           ("Hi" +:+ FieldExtractor.instructions_key +:+ "," +:+ FieldExtractor.instructions_key) "").
  reflexivity.
Defined.

(** X3: the returned content never holds a match of the end marker
    pattern, whether the end is reached or not. *)
Theorem X3_content_free_of_marker (accumulated currentStreamed : string) :
  ~ contains_end_marker
      (FieldExtractor.content
         (FieldExtractor.extractStreamContent accumulated currentStreamed)).
Proof.
  intros (before & rest & Hc & Hrest).
  destruct (extractStreamContent_prefix accumulated currentStreamed) as [tail Hacc].
  destruct (FieldExtractor.match_endMarkerPattern accumulated) as [index|] eqn:E.
  - destruct (extractStreamContent_Some _ currentStreamed _ E) as [Hres Hlen].
    rewrite Hres in Hc, Hacc. cbn [FieldExtractor.content] in Hc, Hacc.
    assert (Hle : (index <= String.length before)%nat).
    { apply (match_endMarkerPattern_leftmost accumulated before (rest +:+ tail) index E).
      - now rewrite Hacc, Hc, append_assoc.
      - now apply starts_with_end_marker_append. }
    destruct Hrest as (m & after & Hm & ->).
    apply end_marker_nonempty in Hm.
    rewrite Hc, !length_append in Hlen. lia.
  - apply match_endMarkerPattern_None in E. apply E.
    rewrite Hacc. apply contains_end_marker_append. now exists before, rest.
Qed.

(** X4: when the end is reached, the content does not end with white
    space: white space in front of the closing quote belongs to the match
    and is cut off. *)
Theorem X4_final_content_has_no_trailing_space
    (accumulated currentStreamed front : string) (last : ascii) :
  FieldExtractor.endReached
    (FieldExtractor.extractStreamContent accumulated currentStreamed) = true ->
  FieldExtractor.content
    (FieldExtractor.extractStreamContent accumulated currentStreamed)
    = front +:+ Js.str last ->
  Js.is_space last = false.
Proof.
  intros Hend Hcontent.
  destruct (endReached_leftmost _ currentStreamed Hend)
    as [(m & after & Hm & Hacc) Hleft].
  destruct (Js.is_space last) eqn:E; [exfalso | reflexivity].
  rewrite Hcontent in Hacc, Hleft.
  specialize (Hleft front (String last m +:+ after)).
  rewrite length_append in Hleft. cbn in Hleft.
  enough (String.length front + 1 <= String.length front)%nat by lia.
  apply Hleft.
  - rewrite Hacc, append_assoc. reflexivity.
  - exists (String last m), after. split; [| reflexivity].
    destruct Hm as (w1 & w2 & w3 & Hw1 & Hw2 & Hw3 & ->).
    exists (String last w1), w2, w3. repeat split; try assumption.
    now constructor.
Qed.

Lemma X4_witness :
  Js.is_space "i"%char = false.
Proof.
  apply (X4_final_content_has_no_trailing_space
           ("Hi  " +:+ Js.str Js.quote +:+ "," +:+ FieldExtractor.instructions_key)
           "" "H" "i"%char); reflexivity.
Defined.

(** X5: the safety margin is enough for a marker of at most 20
    characters.  When an accumulator without a marker grows and the growth
    completes a marker of at most 20 characters, the content returned before
    the growth is a prefix of the final content: nothing of the marker was
    returned early. *)
Theorem X5_margin_covers_short_marker
    (accumulated extension currentStreamed1 currentStreamed2 m after : string) :
  ~ contains_end_marker accumulated ->
  end_marker m ->
  (String.length m <= 20)%nat ->
  accumulated +:+ extension =
    FieldExtractor.content
      (FieldExtractor.extractStreamContent (accumulated +:+ extension) currentStreamed2)
    +:+ m +:+ after ->
  exists delta,
    FieldExtractor.content
      (FieldExtractor.extractStreamContent (accumulated +:+ extension) currentStreamed2)
    = FieldExtractor.content
        (FieldExtractor.extractStreamContent accumulated currentStreamed1) +:+ delta.
Proof.
  intros Hnone Hm Hlen Hacc.
  rewrite (extractStreamContent_no_marker _ currentStreamed1 Hnone).
  cbn [FieldExtractor.content].
  set (final := FieldExtractor.content _) in *.
  pose proof (take_drop_chars (String.length accumulated - 20) accumulated) as Hsplit.
  apply (append_eq_prefix _ (Js.drop_chars (String.length accumulated - 20) accumulated
                             +:+ extension) _ (m +:+ after)).
  - now rewrite <- append_assoc, Hsplit.
  - rewrite length_take_chars.
    destruct (Nat.le_gt_cases (String.length accumulated - 20) (String.length final))
      as [H|H]; [lia | exfalso].
    apply Hnone.
    assert (Hpre : exists t, accumulated = (final +:+ m) +:+ t).
    { rewrite <- append_assoc in Hacc.
      destruct (append_eq_split _ _ _ _ Hacc) as [Ht | (c & t & Ht)]; [exact Ht |].
      apply (f_equal String.length) in Ht.
      rewrite !length_append in Ht. cbn in Ht. lia. }
    destruct Hpre as [t Ht]. exists final, (m +:+ t).
    split; [now rewrite Ht, append_assoc | now exists m, t].
Qed.

Lemma X5_witness :
  exists delta,
    FieldExtractor.content
      (FieldExtractor.extractStreamContent
         ("The quick brown fox jumps over" +:+
          (" the lazy dog" +:+ Js.str Js.quote +:+ ", " +:+ FieldExtractor.instructions_key)) "")
    = FieldExtractor.content
        (FieldExtractor.extractStreamContent "The quick brown fox jumps over" "")
      +:+ delta.
Proof.
  apply (X5_margin_covers_short_marker
           "The quick brown fox jumps over"
           (" the lazy dog" +:+ Js.str Js.quote +:+ ", " +:+ FieldExtractor.instructions_key)
           "" ""
           (Js.str Js.quote +:+ ", " +:+ FieldExtractor.instructions_key) "").
  - apply match_endMarkerPattern_None. reflexivity.
  - exists "", "", " ". repeat split; try constructor; try reflexivity.
    constructor.
  - cbn. lia.
  - reflexivity.
Defined.

(** X6: once the end marker is in the accumulated string, every later call
    on a longer accumulated string returns the same result: the final
    content does not move when more text arrives. *)
Theorem X6_final_content_is_stable
    (accumulated extension currentStreamed1 currentStreamed2 : string) :
  contains_end_marker accumulated ->
  FieldExtractor.extractStreamContent (accumulated +:+ extension) currentStreamed2
  = FieldExtractor.extractStreamContent accumulated currentStreamed1.
Proof.
  intros H. apply extractStreamContent_final.
  destruct (FieldExtractor.match_endMarkerPattern accumulated) as [index|] eqn:E.
  - now rewrite (proj1 (extractStreamContent_Some _ currentStreamed1 _ E)).
  - apply match_endMarkerPattern_None in E. contradiction.
Qed.

Lemma X6_witness :
  FieldExtractor.extractStreamContent
    (("Hi" +:+ Js.str Js.quote +:+ "," +:+ FieldExtractor.instructions_key) +:+ ": more") ""
  = FieldExtractor.extractStreamContent
      ("Hi" +:+ Js.str Js.quote +:+ "," +:+ FieldExtractor.instructions_key) "".
Proof.
  apply (X6_final_content_is_stable
           ("Hi" +:+ Js.str Js.quote +:+ "," +:+ FieldExtractor.instructions_key)
           ": more" "" "").
  exists "Hi", (Js.str Js.quote +:+ "," +:+ FieldExtractor.instructions_key).
  split; [reflexivity |].
  exists (Js.str Js.quote +:+ "," +:+ FieldExtractor.instructions_key), "".
  split; [| reflexivity].
  exists "", "", "". repeat split; constructor.
Defined.

(** ** Escape normalizer: the other escapes *)

Section EscapeGroups.
Import Js EscapeNormalizer.

Lemma replace_empty (pat rep : string) : replace pat rep "" = "".
Proof. reflexivity. Qed.

(** A stage passes the plain text [u] and turns the group [g], which is
    closed text, into [g']. *)
(** A pattern that differs from [g] inside [g] does not match at the start
    of any text that starts with [g]. *)
Lemma prefix_mismatch (pat g rest : string) :
  String.prefix pat g = false ->
  String.prefix g pat = false ->
  String.prefix pat (g +:+ rest) = false.
Proof.
  intros H1 H2. apply not_true_is_false. intros H.
  apply prefix_spec in H as [t Ht].
  destruct (append_eq_split _ _ _ _ Ht) as [[t' Hg] | (c & t' & Hp)].
  - assert (String.prefix pat g = true) by (apply prefix_spec; now exists t').
    congruence.
  - assert (String.prefix g pat = true)
      by (apply prefix_spec; now exists (String c t')).
    congruence.
Qed.

Lemma scan_closed_correct (pat rep g : string) :
  forall (skip : nat) (g' rest : string),
    scan_closed pat rep skip g = Some g' ->
    replace_go pat rep skip (g +:+ rest) = g' +:+ replace_go pat rep 0 rest.
Proof.
  induction g as [|c g IH]; intros skip g' rest; cbn [scan_closed].
  - destruct skip; [intros [= <-]; reflexivity | discriminate].
  - cbn [String.append replace_go]. destruct skip as [|k]; [| now apply IH].
    change (String c (g +:+ rest)) with (String c g +:+ rest).
    destruct (String.prefix pat (String c g)) eqn:E1.
    + destruct (scan_closed pat rep (String.length pat - 1) g) as [out|] eqn:E;
        [| discriminate].
      intros [= <-].
      assert (String.prefix pat (String c g +:+ rest) = true) as ->.
      { apply prefix_spec. apply prefix_spec in E1 as [t ->].
        exists (t +:+ rest). now rewrite append_assoc. }
      rewrite (IH _ _ rest E). now rewrite append_assoc.
    + destruct (String.prefix (String c g) pat) eqn:E2; [discriminate |].
      destruct (scan_closed pat rep 0 g) as [out|] eqn:E; [| discriminate].
      intros [= <-].
      rewrite (prefix_mismatch _ _ rest E1 E2).
      now rewrite (IH _ _ rest E).
Qed.

Lemma replace_closed (pat rep g g' rest : string) :
  scan_closed pat rep 0 g = Some g' ->
  replace pat rep (g +:+ rest) = g' +:+ replace pat rep rest.
Proof. apply scan_closed_correct. Qed.

(** A stage passes the plain text [u] and turns the group [g], which is
    closed text, into [g']. *)
Ltac stage u Hu g g' :=
  match goal with
  | |- context [replace (String ?a ?pat) ?r (u +:+ (g +:+ ?x))] =>
      rewrite (replace_free_prefix a pat r u (g +:+ x) Hu);
      rewrite (replace_closed (String a pat) r g g' x eq_refl)
  end.

(** Plain text goes through every stage unchanged. *)
Lemma unescapeStreamingJson_plain (u : string) :
  plain u = true -> unescapeStreamingJson u = u.
Proof.
  intros Hplain. destruct (plain_free u Hplain) as [Hbs Hlt].
  rewrite <- (append_nil_r u) at 1.
  unfold unescapeStreamingJson, pipe.
  change ("\\" +:+ str quote) with (String backslash (String backslash (str quote))).
  do 6 (rewrite (replace_free_prefix _ _ _ u) by exact Hbs; rewrite replace_empty).
  do 4 (rewrite (replace_free_prefix _ _ _ u) by exact Hlt; rewrite replace_empty).
  apply append_nil_r.
Qed.

(** An escaped line feed: a backslash and the letter n. *)
Lemma unescape_group_n (u rest : string) :
  plain u = true ->
  unescapeStreamingJson (u +:+ "\n" +:+ rest)
  = u +:+ str LF +:+ unescapeStreamingJson rest.
Proof.
  intros Hplain. destruct (plain_free u Hplain) as [Hbs Hlt].
  unfold unescapeStreamingJson, pipe.
  change ("\\" +:+ str quote) with (String backslash (String backslash (str quote))).
  do 4 (stage u Hbs "\n" "\n").
  stage u Hbs "\n" (str LF).
  stage u Hbs (str LF) (str LF).
  do 4 (stage u Hlt (str LF) (str LF)).
  reflexivity.
Qed.

(** An escaped tab: a backslash and the letter t. *)
Lemma unescape_group_t (u rest : string) :
  plain u = true ->
  unescapeStreamingJson (u +:+ "\t" +:+ rest)
  = u +:+ str TAB +:+ unescapeStreamingJson rest.
Proof.
  intros Hplain. destruct (plain_free u Hplain) as [Hbs Hlt].
  unfold unescapeStreamingJson, pipe.
  change ("\\" +:+ str quote) with (String backslash (String backslash (str quote))).
  do 5 (stage u Hbs "\t" "\t").
  stage u Hbs "\t" (str TAB).
  do 4 (stage u Hlt (str TAB) (str TAB)).
  reflexivity.
Qed.

(** Three backslashes and the letter n. *)
Lemma unescape_group_bbbn (u rest : string) :
  plain u = true ->
  unescapeStreamingJson (u +:+ "\\\n" +:+ rest)
  = u +:+ "\n" +:+ unescapeStreamingJson rest.
Proof.
  intros Hplain. destruct (plain_free u Hplain) as [Hbs Hlt].
  unfold unescapeStreamingJson, pipe.
  change ("\\" +:+ str quote) with (String backslash (String backslash (str quote))).
  stage u Hbs "\\\n" "\\\n".
  stage u Hbs "\\\n" "<<<NL>>>".
  do 4 (stage u Hbs "<<<NL>>>" "<<<NL>>>").
  stage u Hlt "<<<NL>>>" "\n".
  do 3 (stage u Hlt "\n" "\n").
  reflexivity.
Qed.

(** Three backslashes and the letter t. *)
Lemma unescape_group_bbbt (u rest : string) :
  plain u = true ->
  unescapeStreamingJson (u +:+ "\\\t" +:+ rest)
  = u +:+ "\t" +:+ unescapeStreamingJson rest.
Proof.
  intros Hplain. destruct (plain_free u Hplain) as [Hbs Hlt].
  unfold unescapeStreamingJson, pipe.
  change ("\\" +:+ str quote) with (String backslash (String backslash (str quote))).
  do 2 (stage u Hbs "\\\t" "\\\t").
  stage u Hbs "\\\t" "<<<TAB>>>".
  do 3 (stage u Hbs "<<<TAB>>>" "<<<TAB>>>").
  stage u Hlt "<<<TAB>>>" "<<<TAB>>>".
  stage u Hlt "<<<TAB>>>" "\t".
  do 2 (stage u Hlt "\t" "\t").
  reflexivity.
Qed.

(** Two backslashes and a quote. *)
Lemma unescape_group_bbq (u rest : string) :
  plain u = true ->
  unescapeStreamingJson (u +:+ ("\\" +:+ str quote) +:+ rest)
  = u +:+ str quote +:+ unescapeStreamingJson rest.
Proof.
  intros Hplain. destruct (plain_free u Hplain) as [Hbs Hlt].
  unfold unescapeStreamingJson, pipe.
  change ("\\" +:+ str quote) with (String backslash (String backslash (str quote))).
  do 3 (stage u Hbs (String backslash (String backslash (str quote)))
                    (String backslash (String backslash (str quote)))).
  stage u Hbs (String backslash (String backslash (str quote))) "<<<DQ>>>".
  do 2 (stage u Hbs "<<<DQ>>>" "<<<DQ>>>").
  do 2 (stage u Hlt "<<<DQ>>>" "<<<DQ>>>").
  stage u Hlt "<<<DQ>>>" (str quote).
  stage u Hlt (str quote) (str quote).
  reflexivity.
Qed.

(** Two backslashes and the letter n. *)
Lemma unescape_group_bbn (u rest : string) :
  plain u = true ->
  unescapeStreamingJson (u +:+ "\\n" +:+ rest)
  = u +:+ ("\" +:+ str LF) +:+ unescapeStreamingJson rest.
Proof.
  intros Hplain. destruct (plain_free u Hplain) as [Hbs Hlt].
  unfold unescapeStreamingJson, pipe.
  change ("\\" +:+ str quote) with (String backslash (String backslash (str quote))).
  do 4 (stage u Hbs "\\n" "\\n").
  stage u Hbs "\\n" ("\" +:+ str LF).
  stage u Hbs ("\" +:+ str LF) ("\" +:+ str LF).
  do 4 (stage u Hlt ("\" +:+ str LF) ("\" +:+ str LF)).
  reflexivity.
Qed.

(** The text of a sentinel in the input. *)
Lemma unescape_sentinel_text (u rest : string) :
  plain u = true ->
  unescapeStreamingJson (u +:+ "<<<BS>>>" +:+ rest)
    = u +:+ "\" +:+ unescapeStreamingJson rest /\
  unescapeStreamingJson (u +:+ "<<<DQ>>>" +:+ rest)
    = u +:+ str quote +:+ unescapeStreamingJson rest /\
  unescapeStreamingJson (u +:+ "<<<NL>>>" +:+ rest)
    = u +:+ "\n" +:+ unescapeStreamingJson rest /\
  unescapeStreamingJson (u +:+ "<<<TAB>>>" +:+ rest)
    = u +:+ "\t" +:+ unescapeStreamingJson rest.
Proof.
  intros Hplain. destruct (plain_free u Hplain) as [Hbs Hlt].
  unfold unescapeStreamingJson, pipe.
  change ("\\" +:+ str quote) with (String backslash (String backslash (str quote))).
  split; [| split; [| split]].
  - do 6 (stage u Hbs "<<<BS>>>" "<<<BS>>>").
    do 3 (stage u Hlt "<<<BS>>>" "<<<BS>>>").
    stage u Hlt "<<<BS>>>" "\". reflexivity.
  - do 6 (stage u Hbs "<<<DQ>>>" "<<<DQ>>>").
    do 2 (stage u Hlt "<<<DQ>>>" "<<<DQ>>>").
    stage u Hlt "<<<DQ>>>" (str quote).
    stage u Hlt (str quote) (str quote). reflexivity.
  - do 6 (stage u Hbs "<<<NL>>>" "<<<NL>>>").
    stage u Hlt "<<<NL>>>" "\n".
    do 3 (stage u Hlt "\n" "\n"). reflexivity.
  - do 6 (stage u Hbs "<<<TAB>>>" "<<<TAB>>>").
    stage u Hlt "<<<TAB>>>" "<<<TAB>>>".
    stage u Hlt "<<<TAB>>>" "\t".
    do 2 (stage u Hlt "\t" "\t"). reflexivity.
Qed.

End EscapeGroups.

Section EscapePieces.
Import Js EscapeNormalizer.

(** Plain text in front goes through and the rest is normalized on its
    own. *)
Lemma unescape_plain_prefix (u rest : string) :
  plain u = true ->
  unescapeStreamingJson (u +:+ rest) = u +:+ unescapeStreamingJson rest.
Proof.
  intros Hplain. destruct (plain_free u Hplain) as [Hbs Hlt].
  unfold unescapeStreamingJson, pipe.
  change ("\\" +:+ str quote) with (String backslash (String backslash (str quote))).
  do 6 (rewrite (replace_free_prefix _ _ _ u) by exact Hbs).
  do 4 (rewrite (replace_free_prefix _ _ _ u) by exact Hlt).
  reflexivity.
Qed.

Lemma unescape_piece (p : piece) (rest : string) :
  piece_plain p = true ->
  unescapeStreamingJson (piece_source p +:+ rest)
  = piece_decoded p +:+ unescapeStreamingJson rest.
Proof.
  intros Hp. destruct p as [u | g]; cbn [piece_source piece_decoded].
  - now apply unescape_plain_prefix.
  - destruct g.
    + exact (unescapeStreamingJson_group "" rest eq_refl).
    + exact (unescape_group_bbbn "" rest eq_refl).
    + exact (unescape_group_bbbt "" rest eq_refl).
    + exact (unescape_group_bbq "" rest eq_refl).
    + exact (unescape_group_n "" rest eq_refl).
    + exact (unescape_group_t "" rest eq_refl).
Qed.

End EscapePieces.

(** X7: on an input made of plain text (no backslash, no [<]) and escape
    groups, in any order, the normalizer decodes piece by piece: four
    backslashes give a backslash, three backslashes and n (or t) give a
    backslash and n (or t), two backslashes and a quote give a quote, a
    backslash and n (or t) give a line feed (or a tab), and plain text is
    unchanged. *)
Theorem X7_unescape_piecewise (pieces : list piece) :
  forallb piece_plain pieces = true ->
  EscapeNormalizer.unescapeStreamingJson (join (map piece_source pieces))
  = join (map piece_decoded pieces).
Proof.
  induction pieces as [|p pieces IH]; cbn [forallb map join]; [reflexivity |].
  intros H. apply andb_true_iff in H as [Hp Hrest].
  rewrite (unescape_piece p _ Hp). now rewrite (IH Hrest).
Qed.

Lemma X7_witness :
  EscapeNormalizer.unescapeStreamingJson
    (join (map piece_source
             [Text "say "; Escape TwoBackslashesQuote; Text "hi";
              Escape TwoBackslashesQuote; Escape BackslashN;
              Text "C:"; Escape FourBackslashes; Text "tmp"]))
  = join (map piece_decoded
            [Text "say "; Escape TwoBackslashesQuote; Text "hi";
             Escape TwoBackslashesQuote; Escape BackslashN;
             Text "C:"; Escape FourBackslashes; Text "tmp"]).
Proof.
  apply (X7_unescape_piecewise
           [Text "say "; Escape TwoBackslashesQuote; Text "hi";
            Escape TwoBackslashesQuote; Escape BackslashN;
            Text "C:"; Escape FourBackslashes; Text "tmp"]).
  reflexivity.
Defined.

(** X8: the sentinels are not private.  Sentinel text that is in the input
    already is resolved like a sentinel that a stage introduced: the input
    text of the backslash sentinel comes out as a backslash, that of the
    quote sentinel as a quote, that of the line feed and tab sentinels as a
    backslash and the letter n or t. *)
Theorem X8_sentinel_text_in_input_is_resolved (u rest : string) :
  plain u = true ->
  EscapeNormalizer.unescapeStreamingJson (u +:+ "<<<BS>>>" +:+ rest)
    = u +:+ "\" +:+ EscapeNormalizer.unescapeStreamingJson rest /\
  EscapeNormalizer.unescapeStreamingJson (u +:+ "<<<DQ>>>" +:+ rest)
    = u +:+ Js.str Js.quote +:+ EscapeNormalizer.unescapeStreamingJson rest /\
  EscapeNormalizer.unescapeStreamingJson (u +:+ "<<<NL>>>" +:+ rest)
    = u +:+ "\n" +:+ EscapeNormalizer.unescapeStreamingJson rest /\
  EscapeNormalizer.unescapeStreamingJson (u +:+ "<<<TAB>>>" +:+ rest)
    = u +:+ "\t" +:+ EscapeNormalizer.unescapeStreamingJson rest.
Proof. exact (unescape_sentinel_text u rest). Qed.

Lemma X8_witness :
  EscapeNormalizer.unescapeStreamingJson ("a " +:+ "<<<BS>>>" +:+ " b")
    = "a " +:+ "\" +:+ EscapeNormalizer.unescapeStreamingJson " b".
Proof.
  apply (X8_sentinel_text_in_input_is_resolved "a " " b"). reflexivity.
Defined.

(** X9: two backslashes followed by the letter n, the JSON text of a
    backslash and an n, come out as a backslash and a line feed: the first
    backslash is kept and the second one is read as the escape of the
    line feed. *)
Theorem X9_two_backslashes_n (u rest : string) :
  plain u = true ->
  EscapeNormalizer.unescapeStreamingJson (u +:+ "\\n" +:+ rest)
  = u +:+ ("\" +:+ Js.str Js.LF) +:+ EscapeNormalizer.unescapeStreamingJson rest.
Proof. exact (unescape_group_bbn u rest). Qed.

Lemma X9_witness :
  EscapeNormalizer.unescapeStreamingJson ("C:" +:+ "\\n" +:+ "ew")
  = "C:" +:+ ("\" +:+ Js.str Js.LF) +:+ EscapeNormalizer.unescapeStreamingJson "ew".
Proof.
  apply (X9_two_backslashes_n "C:" "ew"). reflexivity.
Defined.

(** ** Automation decision engine: the other decisions *)

Section AutomationMore.
Import Js SettingsManager.

Lemma occurs_in_empty (s : string) : occurs_in "" s.
Proof. now exists "", s. Qed.

Lemma matchesPattern_empty_item (pattern : string) : matchesPattern "" pattern = true.
Proof. unfold matchesPattern. rewrite (includes_empty pattern). apply orb_true_r. Qed.

Lemma isInAllowList_empty_item (allowList : list string) :
  isInAllowList "" allowList = negb (match allowList with [] => true | _ => false end).
Proof.
  destruct allowList as [|e l]; [reflexivity |].
  unfold isInAllowList. cbn [existsb]. now rewrite matchesPattern_empty_item.
Qed.

Lemma isInAllowList_incl (item : string) (l1 l2 : list string) :
  incl l1 l2 -> isInAllowList item l1 = true -> isInAllowList item l2 = true.
Proof.
  unfold isInAllowList. rewrite !existsb_exists.
  intros Hincl (e & Hin & He). exists e. split; [now apply Hincl | exact He].
Qed.

End AutomationMore.

(** X10: a kind whose master flag is off is never automated, whatever its
    lists and its allow-anything flag say; with nothing stored the defaults
    apply and no console command, terminal command or file is accepted. *)
Theorem X10_master_flag_off_denies
    (settings : SettingsManager.AutomationSettings) (env : SettingsManager.Env)
    (subject : string) :
  (SettingsManager.auto_accept_console settings = false ->
   SettingsManager.canAutoAcceptConsoleCommand (Some settings) subject = false) /\
  (SettingsManager.auto_accept_terminal settings = false ->
   SettingsManager.canAutoAcceptTerminalCommand (Some settings) subject = false) /\
  (SettingsManager.auto_run_files settings = false ->
   SettingsManager.canAutoRunFile (Some settings) env subject = false) /\
  SettingsManager.canAutoAcceptConsoleCommand None subject = false /\
  SettingsManager.canAutoAcceptTerminalCommand None subject = false /\
  SettingsManager.canAutoRunFile None env subject = false.
Proof.
  unfold SettingsManager.canAutoAcceptConsoleCommand,
    SettingsManager.canAutoAcceptTerminalCommand, SettingsManager.canAutoRunFile.
  cbn [SettingsManager.getAutomationSettings].
  repeat split; try reflexivity; intros ->; reflexivity.
Qed.

(** X11: the deny list of terminal and console commands is read only when
    allow anything is on, and the allow list only when it is off.  Two
    settings with the same flags and the same allow list decide alike when
    allow anything is off, whatever their deny lists; with allow anything on
    the same holds for equal deny lists, whatever the allow lists. *)
Theorem X11_only_one_list_is_read
    (s1 s2 : SettingsManager.AutomationSettings) (command : string) :
  SettingsManager.auto_accept_terminal s1 = SettingsManager.auto_accept_terminal s2 ->
  SettingsManager.auto_accept_terminal_allow_anything s1
    = SettingsManager.auto_accept_terminal_allow_anything s2 ->
  SettingsManager.auto_accept_console s1 = SettingsManager.auto_accept_console s2 ->
  SettingsManager.auto_accept_console_allow_anything s1
    = SettingsManager.auto_accept_console_allow_anything s2 ->
  (SettingsManager.auto_accept_terminal_allow_anything s1 = false ->
   SettingsManager.auto_accept_terminal_allow_list s1
     = SettingsManager.auto_accept_terminal_allow_list s2 ->
   SettingsManager.canAutoAcceptTerminalCommand (Some s1) command
     = SettingsManager.canAutoAcceptTerminalCommand (Some s2) command) /\
  (SettingsManager.auto_accept_terminal_allow_anything s1 = true ->
   SettingsManager.auto_accept_terminal_deny_list s1
     = SettingsManager.auto_accept_terminal_deny_list s2 ->
   SettingsManager.canAutoAcceptTerminalCommand (Some s1) command
     = SettingsManager.canAutoAcceptTerminalCommand (Some s2) command) /\
  (SettingsManager.auto_accept_console_allow_anything s1 = false ->
   SettingsManager.auto_accept_console_allow_list s1
     = SettingsManager.auto_accept_console_allow_list s2 ->
   SettingsManager.canAutoAcceptConsoleCommand (Some s1) command
     = SettingsManager.canAutoAcceptConsoleCommand (Some s2) command) /\
  (SettingsManager.auto_accept_console_allow_anything s1 = true ->
   SettingsManager.auto_accept_console_deny_list s1
     = SettingsManager.auto_accept_console_deny_list s2 ->
   SettingsManager.canAutoAcceptConsoleCommand (Some s1) command
     = SettingsManager.canAutoAcceptConsoleCommand (Some s2) command).
Proof.
  intros Ht Hta Hc Hca.
  unfold SettingsManager.canAutoAcceptTerminalCommand,
    SettingsManager.canAutoAcceptConsoleCommand.
  cbn [SettingsManager.getAutomationSettings].
  rewrite <- Ht, <- Hta, <- Hc, <- Hca.
  repeat split; intros Hmode Hlist; rewrite Hmode, Hlist; reflexivity.
Qed.

Lemma X11_witness :
  SettingsManager.canAutoAcceptTerminalCommand (Some ls_pwd_settings) "ls /"
  = SettingsManager.canAutoAcceptTerminalCommand
      (Some (SettingsManager.set_list_property ls_pwd_settings
               "auto_accept_terminal_deny_list" ["ls"])) "ls /".
Proof.
  refine (proj1 (X11_only_one_list_is_read ls_pwd_settings
                   (SettingsManager.set_list_property ls_pwd_settings
                      "auto_accept_terminal_deny_list" ["ls"]) "ls /" _ _ _ _) _ _);
    reflexivity.
Defined.

(** X12: the decision depends on the entries of a list only as a set, and
    a longer list never narrows what it is for.  With allow anything off, a
    terminal command accepted under an allow list is accepted under every
    list that holds its entries; with allow anything on, a command accepted
    under a deny list is accepted under every list whose entries that list
    holds. *)
Theorem X12_lists_are_monotone
    (s1 s2 : SettingsManager.AutomationSettings) (command : string) :
  SettingsManager.auto_accept_terminal s1 = SettingsManager.auto_accept_terminal s2 ->
  SettingsManager.auto_accept_terminal_allow_anything s1
    = SettingsManager.auto_accept_terminal_allow_anything s2 ->
  incl (SettingsManager.auto_accept_terminal_allow_list s1)
       (SettingsManager.auto_accept_terminal_allow_list s2) ->
  incl (SettingsManager.auto_accept_terminal_deny_list s2)
       (SettingsManager.auto_accept_terminal_deny_list s1) ->
  SettingsManager.canAutoAcceptTerminalCommand (Some s1) command = true ->
  SettingsManager.canAutoAcceptTerminalCommand (Some s2) command = true.
Proof.
  intros Ht Hta Hallow Hdeny.
  unfold SettingsManager.canAutoAcceptTerminalCommand.
  cbn [SettingsManager.getAutomationSettings]. rewrite <- Ht, <- Hta.
  destruct (SettingsManager.auto_accept_terminal s1); cbn [negb]; [| discriminate].
  destruct (SettingsManager.auto_accept_terminal_allow_anything s1).
  - rewrite !negb_true_iff. intros H1.
    apply not_true_is_false. intros H2.
    apply (isInAllowList_incl _ _ _ Hdeny) in H2.
    unfold SettingsManager.isInDenyList in H1.
    unfold SettingsManager.isInAllowList in H2. congruence.
  - now apply isInAllowList_incl.
Qed.

Lemma X12_witness :
  SettingsManager.canAutoAcceptTerminalCommand
    (Some (SettingsManager.set_list_property ls_pwd_settings
             "auto_accept_terminal_allow_list" ["pwd"; "git"; "ls"; "ls"])) "ls -la" = true.
Proof.
  apply (X12_lists_are_monotone ls_pwd_settings
           (SettingsManager.set_list_property ls_pwd_settings
              "auto_accept_terminal_allow_list" ["pwd"; "git"; "ls"; "ls"]) "ls -la");
    try reflexivity.
  - intros x Hx. cbn in *. tauto.
  - intros x Hx. exact Hx.
Defined.

(** X13: the empty command.  With the terminal flag on, the empty command
    occurs in every entry, so it is accepted under every allow list that is
    not empty, and with allow anything on it is refused as soon as the deny
    list has an entry. *)
Theorem X13_empty_command (settings : SettingsManager.AutomationSettings) :
  SettingsManager.auto_accept_terminal settings = true ->
  (SettingsManager.auto_accept_terminal_allow_anything settings = false ->
   (SettingsManager.canAutoAcceptTerminalCommand (Some settings) "" = true <->
    SettingsManager.auto_accept_terminal_allow_list settings <> [])) /\
  (SettingsManager.auto_accept_terminal_allow_anything settings = true ->
   (SettingsManager.canAutoAcceptTerminalCommand (Some settings) "" = true <->
    SettingsManager.auto_accept_terminal_deny_list settings = [])).
Proof.
  intros Hon. unfold SettingsManager.canAutoAcceptTerminalCommand.
  cbn [SettingsManager.getAutomationSettings]. rewrite Hon. cbn [negb].
  split; intros ->.
  - rewrite isInAllowList_empty_item.
    destruct (SettingsManager.auto_accept_terminal_allow_list settings);
      cbn; split; congruence.
  - unfold SettingsManager.isInDenyList.
    change (existsb _ ?l) with (SettingsManager.isInAllowList "" l).
    rewrite isInAllowList_empty_item.
    destruct (SettingsManager.auto_accept_terminal_deny_list settings);
      cbn; split; congruence.
Qed.

Lemma X13_witness :
  SettingsManager.canAutoAcceptTerminalCommand (Some ls_pwd_settings) "" = true.
Proof.
  refine (proj2 (proj1 (X13_empty_command ls_pwd_settings _) _) _);
    [reflexivity | reflexivity | discriminate].
Defined.

(** ** Tilde expansion and the file decision *)

Section TildeFacts.
Import Js SettingsManager.

(** A replacement text without a dollar is taken as it is. *)
Lemma getSubstitution_literal (matched before after replacement : string) :
  free_of "$"%char replacement = true ->
  getSubstitution matched before after replacement = replacement.
Proof.
  induction replacement as [|c r IH]; cbn [getSubstitution free_of]; [reflexivity |].
  intros H. apply andb_true_iff in H as [Hc Hr].
  apply negb_true_iff in Hc. rewrite Hc. now rewrite (IH Hr).
Qed.

Lemma find_first_at_start (pattern rest : string) :
  find_first pattern (pattern +:+ rest) = Some ("", rest).
Proof.
  destruct pattern as [|a pattern].
  - cbn [String.append]. destruct rest; reflexivity.
  - cbn [String.append find_first].
    change (String a (pattern +:+ rest)) with (String a pattern +:+ rest).
    now rewrite prefix_append, drop_chars_append.
Qed.

Lemma expandTildePath_tilde (env : Env) (homeDir rest : string) :
  home_of env = Some homeDir ->
  free_of "$"%char homeDir = true ->
  expandTildePath env ("~" +:+ rest) = homeDir +:+ rest.
Proof.
  unfold home_of, expandTildePath, startsWith. intros Hhome Hfree.
  rewrite prefix_append.
  destruct (or_else (HOME env) (USERPROFILE env)) as [h|]; [| discriminate].
  destruct (h =? "")%string; [discriminate |]. injection Hhome as ->.
  cbn [negb]. unfold replace_string. rewrite find_first_at_start.
  now rewrite getSubstitution_literal.
Qed.

Lemma expandTildePath_other (env : Env) (path : string) :
  startsWith path "~" = false -> expandTildePath env path = path.
Proof. unfold expandTildePath. now intros ->. Qed.

Lemma expandTildePath_no_home (env : Env) (path : string) :
  home_of env = None -> expandTildePath env path = path.
Proof.
  unfold home_of, expandTildePath. intros H.
  destruct (startsWith path "~"); [| reflexivity].
  destruct (or_else (HOME env) (USERPROFILE env)) as [h|]; [| reflexivity].
  now destruct (h =? "")%string.
Qed.

Lemma startsWith_tilde_split (path : string) :
  startsWith path "~" = true -> exists rest, path = "~" +:+ rest.
Proof. unfold startsWith. now rewrite prefix_spec. Qed.

Lemma startsWith_append_nonempty (h rest : string) :
  h <> "" -> startsWith (h +:+ rest) "~" = startsWith h "~".
Proof.
  destruct h as [|c h]; [congruence |]. intros _.
  unfold startsWith. cbn [String.append String.prefix].
  destruct (Ascii.ascii_dec "~" c); [| reflexivity].
  destruct h, rest; reflexivity.
Qed.

(** Expanding twice is expanding once, when the home directory does not
    itself start with a tilde. *)
Lemma expandTildePath_idempotent (env : Env) (homeDir path : string) :
  home_of env = Some homeDir ->
  free_of "$"%char homeDir = true ->
  startsWith homeDir "~" = false ->
  expandTildePath env (expandTildePath env path) = expandTildePath env path.
Proof.
  intros Hhome Hfree Hnot.
  destruct (startsWith path "~") eqn:E.
  - apply startsWith_tilde_split in E as [rest ->].
    rewrite (expandTildePath_tilde env homeDir rest Hhome Hfree).
    apply expandTildePath_other.
    rewrite startsWith_append_nonempty; [exact Hnot |].
    unfold home_of in Hhome.
    destruct (or_else (HOME env) (USERPROFILE env)) as [h|]; [| discriminate].
    destruct (String.eqb_spec h ""); [discriminate |]. congruence.
  - now rewrite !(expandTildePath_other env path E).
Qed.

End TildeFacts.

(** X14: [expandTildePath] changes a path only when the path starts with a
    tilde and a home directory is known, and then it puts the home directory
    in the place of that one tilde, whatever follows it.  The home directory
    is [HOME] when that is set and not empty, else [USERPROFILE] when that
    is set and not empty. *)
Theorem X14_expandTildePath (env : SettingsManager.Env) (path : string) :
  (Js.startsWith path "~" = false \/ home_of env = None ->
   SettingsManager.expandTildePath env path = path) /\
  (forall homeDir rest,
     home_of env = Some homeDir ->
     free_of "$"%char homeDir = true ->
     path = "~" +:+ rest ->
     SettingsManager.expandTildePath env path = homeDir +:+ rest) /\
  (forall homeDir,
     home_of env = Some homeDir <->
     (SettingsManager.HOME env = Some homeDir /\ homeDir <> "") \/
     ((SettingsManager.HOME env = None \/ SettingsManager.HOME env = Some "") /\
      SettingsManager.USERPROFILE env = Some homeDir /\ homeDir <> "")).
Proof.
  split; [| split].
  - intros [H | H];
      [now apply expandTildePath_other | now apply expandTildePath_no_home].
  - intros homeDir rest Hhome Hfree ->. now apply expandTildePath_tilde.
  - intros homeDir. unfold home_of, SettingsManager.or_else.
    destruct env as [[h|] [u|]]; cbn [SettingsManager.HOME SettingsManager.USERPROFILE].
    + destruct (String.eqb_spec h "") as [->|Hh].
      * destruct (String.eqb_spec u "") as [->|Hu]; split.
        -- discriminate.
        -- intros [[[= <-] H] | (_ & [= <-] & H)]; congruence.
        -- intros [= <-]. right. auto.
        -- intros [[[= <-] H] | (_ & [= <-] & _)]; congruence.
      * rewrite (proj2 (String.eqb_neq h "") Hh). split.
        -- intros [= <-]. now left.
        -- intros [[[= <-] _] | ([H | [= H]] & _)]; congruence.
    + destruct (String.eqb_spec h "") as [->|Hh].
      * split; [discriminate |].
        intros [[[= <-] H] | (_ & H & _)]; congruence.
      * rewrite (proj2 (String.eqb_neq h "") Hh). split.
        -- intros [= <-]. now left.
        -- intros [[[= <-] _] | (_ & H & _)]; congruence.
    + destruct (String.eqb_spec u "") as [->|Hu]; split.
      * discriminate.
      * intros [[H _] | (_ & [= <-] & H)]; congruence.
      * intros [= <-]. right. auto.
      * intros [[H _] | (_ & [= <-] & _)]; congruence.
    + split; [discriminate |]. intros [[H _] | (_ & H & _)]; discriminate.
Qed.

(** X15: with a home directory that has no dollar and does not start with
    a tilde, expanding is idempotent and the file decision does not change
    when the home directory is written as a tilde, in the path or in the
    entries of the lists. *)
Theorem X15_canAutoRunFile_tilde_invariant
    (env : SettingsManager.Env) (homeDir : string)
    (s1 s2 : SettingsManager.AutomationSettings) :
  home_of env = Some homeDir ->
  free_of "$"%char homeDir = true ->
  Js.startsWith homeDir "~" = false ->
  SettingsManager.auto_run_files s1 = SettingsManager.auto_run_files s2 ->
  SettingsManager.auto_run_files_allow_anything s1
    = SettingsManager.auto_run_files_allow_anything s2 ->
  SettingsManager.auto_run_files_allow_list s2
    = map (SettingsManager.expandTildePath env) (SettingsManager.auto_run_files_allow_list s1) ->
  SettingsManager.auto_run_files_deny_list s2
    = map (SettingsManager.expandTildePath env) (SettingsManager.auto_run_files_deny_list s1) ->
  (forall path,
     SettingsManager.expandTildePath env (SettingsManager.expandTildePath env path)
     = SettingsManager.expandTildePath env path) /\
  (forall rest,
     SettingsManager.canAutoRunFile (Some s1) env ("~" +:+ rest)
     = SettingsManager.canAutoRunFile (Some s1) env (homeDir +:+ rest)) /\
  (forall path,
     SettingsManager.canAutoRunFile (Some s2) env path
     = SettingsManager.canAutoRunFile (Some s1) env path).
Proof.
  intros Hhome Hfree Hnot Hflag Hany Hallow Hdeny.
  assert (Hidem : forall path,
             SettingsManager.expandTildePath env (SettingsManager.expandTildePath env path)
             = SettingsManager.expandTildePath env path)
    by (intros path; now apply (expandTildePath_idempotent env homeDir)).
  split; [exact Hidem | split].
  - intros rest. unfold SettingsManager.canAutoRunFile.
    rewrite <- (expandTildePath_tilde env homeDir rest Hhome Hfree).
    now rewrite Hidem.
  - intros path. unfold SettingsManager.canAutoRunFile.
    cbn [SettingsManager.getAutomationSettings].
    rewrite <- Hflag, <- Hany, Hallow, Hdeny, !map_map.
    rewrite (map_ext _ _ Hidem (SettingsManager.auto_run_files_allow_list s1)).
    now rewrite (map_ext _ _ Hidem (SettingsManager.auto_run_files_deny_list s1)).
Qed.

Lemma X15_witness :
  SettingsManager.canAutoRunFile (Some scripts_settings) home_env ("~" +:+ "/scripts/run.R")
  = SettingsManager.canAutoRunFile (Some scripts_settings) home_env
      ("/home/ada" +:+ "/scripts/run.R").
Proof.
  refine (proj1 (proj2 (X15_canAutoRunFile_tilde_invariant home_env "/home/ada"
                          scripts_settings
                          (SettingsManager.set_list_property scripts_settings
                             "auto_run_files_allow_list" ["/home/ada/scripts"])
                          _ _ _ _ _ _ _)) "/scripts/run.R");
    reflexivity.
Defined.

(** ** The automation lists and the model selection *)

Section AutomationListFacts.
Import SettingsManager.

Lemma isValidListType_cases (listType : string) :
  isValidListType listType = true ->
  listType = "auto_accept_console_allow_list" \/
  listType = "auto_accept_console_deny_list" \/
  listType = "auto_accept_terminal_allow_list" \/
  listType = "auto_accept_terminal_deny_list" \/
  listType = "auto_run_files_allow_list" \/
  listType = "auto_run_files_deny_list".
Proof.
  unfold isValidListType. rewrite existsb_exists.
  intros (x & Hin & Heq). apply String.eqb_eq in Heq. subst x.
  cbn in Hin. intuition auto.
Qed.

Lemma list_property_set_same
    (settings : AutomationSettings) (listType : string) (items : list string) :
  isValidListType listType = true ->
  list_property (set_list_property settings listType items) listType = items.
Proof.
  intros H. apply isValidListType_cases in H.
  destruct H as [-> | [-> | [-> | [-> | [-> | ->]]]]]; reflexivity.
Qed.

Lemma list_property_set_other
    (settings : AutomationSettings) (listType other : string) (items : list string) :
  listType <> other ->
  list_property (set_list_property settings listType items) other
  = list_property settings other.
Proof.
  intros Hne. unfold list_property, set_list_property; cbn.
  repeat match goal with
         | |- context [(other =? ?k)%string] =>
             destruct (String.eqb_spec other k);
             [subst other; rewrite (proj2 (String.eqb_neq listType k) Hne); reflexivity |]
         end.
  reflexivity.
Qed.

End AutomationListFacts.

(** X16: [setAutomationList] and [getAutomationList].  For one of the six
    list names, the list that was set is the list that is read back, the
    other lists read as before, and the decision flags are untouched; for
    any other name, [setAutomationList] changes nothing and
    [getAutomationList] reads the empty list. *)
Theorem X16_automation_list_round_trip
    (globalState : SettingsManager.GlobalState)
    (listType other : string) (items : list string) :
  (SettingsManager.isValidListType listType = true ->
   SettingsManager.getAutomationList
     (SettingsManager.setAutomationList listType items globalState) listType = items /\
   (listType <> other ->
    SettingsManager.getAutomationList
      (SettingsManager.setAutomationList listType items globalState) other
    = SettingsManager.getAutomationList globalState other) /\
   SettingsManager.auto_accept_terminal
     (SettingsManager.getAutomationSettings
        (SettingsManager.setAutomationList listType items globalState))
   = SettingsManager.auto_accept_terminal
       (SettingsManager.getAutomationSettings globalState) /\
   SettingsManager.auto_accept_terminal_allow_anything
     (SettingsManager.getAutomationSettings
        (SettingsManager.setAutomationList listType items globalState))
   = SettingsManager.auto_accept_terminal_allow_anything
       (SettingsManager.getAutomationSettings globalState)) /\
  (SettingsManager.isValidListType listType = false ->
   SettingsManager.setAutomationList listType items globalState = globalState /\
   SettingsManager.getAutomationList globalState listType = []).
Proof.
  unfold SettingsManager.setAutomationList, SettingsManager.getAutomationList,
    SettingsManager.setAutomationSetting.
  split; intros Hvalid; rewrite Hvalid.
  - cbn [SettingsManager.getAutomationSettings]. repeat split.
    + now apply list_property_set_same.
    + intros Hne. rewrite (list_property_set_other _ _ _ _ Hne). reflexivity.
  - split; reflexivity.
Qed.

(** X17: the active provider follows the stored model.  Setting a provider
    and reading the active provider back gives that provider; with no model
    stored, or with the empty string stored, the active provider is
    anthropic; a stored model that neither provider lists makes the active
    provider openai. *)
Theorem X17_active_provider
    (provider : ApiTypes.AIProvider) (storedModel : string) :
  SettingsManager.getActiveProvider (SettingsManager.setActiveProvider provider)
    = provider /\
  SettingsManager.getActiveProvider None = ApiTypes.anthropic /\
  SettingsManager.getActiveProvider (Some "") = ApiTypes.anthropic /\
  (storedModel <> "" ->
   ~ In storedModel (ApiTypes.AVAILABLE_MODELS ApiTypes.openai) ->
   ~ In storedModel (ApiTypes.AVAILABLE_MODELS ApiTypes.anthropic) ->
   SettingsManager.getActiveProvider (Some storedModel) = ApiTypes.openai).
Proof.
  split; [now destruct provider | split; [reflexivity | split; [reflexivity |]]].
  intros Hne Ho Ha. unfold SettingsManager.getActiveProvider,
    SettingsManager.getSelectedModel, SettingsManager.getProviderFromModel.
  rewrite (proj2 (String.eqb_neq storedModel "") Hne). cbn [negb].
  destruct (SettingsManager.models_include _ storedModel) eqn:E1; [reflexivity |].
  destruct (SettingsManager.models_include
              (ApiTypes.AVAILABLE_MODELS ApiTypes.anthropic) storedModel) eqn:E2;
    [| reflexivity].
  exfalso. apply Ha. unfold SettingsManager.models_include in E2.
  apply existsb_exists in E2 as (x & Hin & Heq).
  apply String.eqb_eq in Heq. now subst.
Qed.

(** ** Temperature and provider configuration *)

Section NumberFacts.
Import Number.

Lemma Qle_bool_false (p q : QArith_base.Q) :
  QArith_base.Qle_bool p q = false -> QArith_base.Qle_bool q p = true.
Proof.
  intros H. apply QArith_base.Qle_bool_iff.
  destruct (QArith_base.Qlt_le_dec q p) as [Hlt | Hle].
  - now apply QArith_base.Qlt_le_weak.
  - apply QArith_base.Qle_bool_iff in Hle. congruence.
Qed.

(** The clamp to the range from 0 to 1, case by case. *)
Lemma clamp01_cases (t : number) :
  max (of_Z 0) (min (of_Z 1) t) =
    match t with
    | NaN => NaN
    | NegInfinity => of_Z 0
    | PosInfinity => of_Z 1
    | Finite q =>
        if QArith_base.Qle_bool (QArith_base.inject_Z 1) q then of_Z 1
        else if QArith_base.Qle_bool (QArith_base.inject_Z 0) q then Finite q
        else of_Z 0
    end.
Proof.
  destruct t as [| |q|]; try reflexivity.
  cbn. destruct (QArith_base.Qle_bool (QArith_base.inject_Z 1) q); [reflexivity |].
  cbn. now destruct (QArith_base.Qle_bool (QArith_base.inject_Z 0) q).
Qed.

End NumberFacts.

(** X18: the temperature clamp.  For both providers the range is 0 to 1.
    A temperature that is not [NaN] is clamped to a value that
    [validateTemperature] accepts, and it is left as it is when it is at
    least 0 and below 1; [NaN] stays [NaN], which [validateTemperature]
    refuses; clamping twice is clamping once; [setTemperature] stores what
    [clampTemperature] returns. *)
Theorem X18_temperature_clamp
    (provider : ApiTypes.AIProvider) (temperature : Number.number) :
  (temperature <> Number.NaN ->
   ProviderConfigManager.validateTemperature provider
     (ProviderConfigManager.clampTemperature provider temperature) = true) /\
  (ProviderConfigManager.validateTemperature provider temperature = true ->
   Number.lt temperature (Number.of_Z 1) = true ->
   ProviderConfigManager.clampTemperature provider temperature = temperature) /\
  ProviderConfigManager.clampTemperature provider Number.NaN = Number.NaN /\
  ProviderConfigManager.validateTemperature provider Number.NaN = false /\
  ProviderConfigManager.clampTemperature provider
    (ProviderConfigManager.clampTemperature provider temperature)
  = ProviderConfigManager.clampTemperature provider temperature /\
  SettingsManager.setTemperature temperature
  = Some (ProviderConfigManager.clampTemperature provider temperature).
Proof.
  assert (Hclamp : forall t, ProviderConfigManager.clampTemperature provider t
                             = Number.max (Number.of_Z 0) (Number.min (Number.of_Z 1) t))
    by (intros t; destruct provider; reflexivity).
  assert (Hvalid : forall t, ProviderConfigManager.validateTemperature provider t
                             = Number.ge t (Number.of_Z 0) && Number.le t (Number.of_Z 1))
    by (intros t; destruct provider; reflexivity).
  unfold SettingsManager.setTemperature.
  rewrite !Hclamp, !Hvalid, !clamp01_cases.
  split; [| split; [| split; [| split; [| split]]]]; try reflexivity.
  - intros Hnan. destruct temperature as [| |q|]; try reflexivity; [congruence |].
    destruct (QArith_base.Qle_bool (QArith_base.inject_Z 1) q) eqn:E1; [reflexivity |].
    destruct (QArith_base.Qle_bool (QArith_base.inject_Z 0) q) eqn:E2; [| reflexivity].
    cbn. rewrite E2. now rewrite (Qle_bool_false _ _ E1).
  - destruct temperature as [| |q|]; cbn; try discriminate.
    intros Hv Hlt. apply andb_true_iff in Hv as [H0 H1].
    apply negb_true_iff in Hlt. now rewrite Hlt, H0.
  - destruct temperature as [| |q|]; try reflexivity.
    destruct (QArith_base.Qle_bool (QArith_base.inject_Z 1) q) eqn:E1; [reflexivity |].
    destruct (QArith_base.Qle_bool (QArith_base.inject_Z 0) q) eqn:E2; [| reflexivity].
    now rewrite E1, E2.
Qed.

(** X19: [getRecommendedProvider] returns anthropic only as its fallback.
    Both providers support every capability and 8192 tokens, so the loop
    returns openai, the first entry, unless more than 8192 tokens are
    required; then no provider fits, anthropic included, and the default
    anthropic is returned. *)
Theorem X19_getRecommendedProvider
    (requirements : ProviderConfigManager.Requirements) :
  (ProviderConfigManager.getRecommendedProvider requirements = ApiTypes.anthropic <->
   exists n,
     ProviderConfigManager.requiredTokens requirements = Some n /\
     Number.lt (Number.of_Z 8192) n = true) /\
  (ProviderConfigManager.getRecommendedProvider requirements = ApiTypes.anthropic ->
   ProviderConfigManager.below_requirement
     (ProviderConfigManager.PROVIDER_CONFIGS ApiTypes.anthropic)
     (ProviderConfigManager.requiredTokens requirements) = true) /\
  (ProviderConfigManager.getRecommendedProvider requirements = ApiTypes.openai \/
   ProviderConfigManager.getRecommendedProvider requirements = ApiTypes.anthropic).
Proof.
  assert (Hshape :
            ProviderConfigManager.getRecommendedProvider requirements =
              if ProviderConfigManager.is_truthy
                   (ProviderConfigManager.requiredTokens requirements)
                 && ProviderConfigManager.below_requirement
                      (ProviderConfigManager.PROVIDER_CONFIGS ApiTypes.anthropic)
                      (ProviderConfigManager.requiredTokens requirements)
              then ApiTypes.anthropic else ApiTypes.openai).
  { unfold ProviderConfigManager.getRecommendedProvider. cbn.
    rewrite !andb_false_r.
    now destruct (ProviderConfigManager.is_truthy _ && _). }
  assert (Htruthy : forall n, Number.lt (Number.of_Z 8192) n = true ->
                              Number.truthy n = true).
  { intros [| |q|]; cbn; try discriminate; try reflexivity.
    intros H. apply negb_true_iff in H. apply negb_true_iff.
    apply not_true_is_false. intros Heq.
    apply QArith_base.Qeq_bool_iff in Heq.
    assert (QArith_base.Qle_bool q (QArith_base.inject_Z 8192) = true); [| congruence].
    apply QArith_base.Qle_bool_iff. rewrite Heq. discriminate. }
  rewrite Hshape. split; [| split].
  - destruct (ProviderConfigManager.requiredTokens requirements) as [n|];
      cbn [ProviderConfigManager.is_truthy ProviderConfigManager.below_requirement
           ProviderConfigManager.maxTokens ProviderConfigManager.PROVIDER_CONFIGS].
    + destruct (Number.lt (Number.of_Z 8192) n) eqn:E.
      * rewrite (Htruthy n E). split; [intros _; now exists n | reflexivity].
      * rewrite andb_false_r. split; [discriminate |].
        intros (m & [= <-] & Hm). congruence.
    + split; [discriminate | intros (m & H & _); discriminate].
  - destruct (ProviderConfigManager.is_truthy _); cbn; [| discriminate].
    now destruct (ProviderConfigManager.below_requirement _ _).
  - destruct (_ && _); auto.
Qed.

(** X20: the two lookups of the provider of a model.
    [getProviderForModel] finds a provider exactly when the model is valid
    for it, and finds none exactly when no provider lists the model;
    [getProviderFromModel] of the settings returns the same provider and
    turns the missing answer into openai. *)
Theorem X20_provider_of_model (model : string) (provider : ApiTypes.AIProvider) :
  (ProviderConfigManager.getProviderForModel model = Some provider <->
   ProviderConfigManager.isValidModelForProvider provider model = true) /\
  (ProviderConfigManager.getProviderForModel model = None <->
   ~ In model ProviderConfigManager.getAllAvailableModels) /\
  SettingsManager.getProviderFromModel model =
    match ProviderConfigManager.getProviderForModel model with
    | Some found => found
    | None => ApiTypes.openai
    end.
Proof.
  unfold ProviderConfigManager.getProviderForModel,
    ProviderConfigManager.isValidModelForProvider,
    SettingsManager.getProviderFromModel, SettingsManager.models_include.
  cbn. rewrite !orb_false_r.
  destruct (String.eqb_spec model "gpt-5-mini") as [->|H1].
  - cbn. split; [| split; [| reflexivity]].
    + destruct provider; cbn; split; congruence.
    + split; [discriminate | intros H; exfalso; apply H; now left].
  - destruct (String.eqb_spec model "claude-sonnet-4-20250514") as [->|H2].
    + cbn. split; [| split; [| reflexivity]].
      * destruct provider; cbn; split; congruence.
      * split; [discriminate | intros H; exfalso; apply H; right; now left].
    + split; [| split; [| reflexivity]].
      * destruct provider; cbn;
          rewrite ?(proj2 (String.eqb_neq _ _) H1), ?(proj2 (String.eqb_neq _ _) H2);
          split; discriminate.
      * split; [| reflexivity]. intros _ [H | [H | []]]; congruence.
Qed.

(** ** The chunks of the stream *)

Section ChunkFacts.
Import Js FrameDecoder.
Context {Json : Type} (JSON_parse : string -> option Json).

Lemma split_LF_nonempty (s : string) : split_LF s <> [].
Proof.
  destruct s as [|c s]; cbn [split_LF]; [discriminate |].
  destruct (Ascii.eqb c LF); [discriminate |].
  destruct (split_LF s); discriminate.
Qed.

(** A line feed separates the lines before it from the lines after it. *)
Lemma split_LF_append (a b : string) :
  split_LF (a +:+ String LF b) = split_LF a ++ split_LF b.
Proof.
  induction a as [|c a IH]; cbn [String.append split_LF].
  - now rewrite Ascii.eqb_refl.
  - destruct (Ascii.eqb c LF); [now rewrite IH |].
    rewrite IH. destruct (split_LF a) as [|l ls] eqn:E; [| reflexivity].
    now destruct (split_LF_nonempty a).
Qed.

(** Text without a line feed is the start of the first line of what
    follows it. *)
Lemma split_LF_line (l s : string) :
  free_of LF l = true ->
  split_LF (l +:+ s) =
    match split_LF s with
    | first :: lines => (l +:+ first) :: lines
    | [] => [l]
    end.
Proof.
  induction l as [|c l IH]; cbn [String.append free_of split_LF].
  - intros _. destruct (split_LF s) eqn:E; [| reflexivity].
    now destruct (split_LF_nonempty s).
  - intros H. apply andb_true_iff in H as [Hc Hl].
    apply negb_true_iff in Hc. rewrite Hc, (IH Hl).
    now destruct (split_LF s).
Qed.

Lemma split_LF_single (l : string) : free_of LF l = true -> split_LF l = [l].
Proof.
  intros H. rewrite <- (append_nil_r l) at 1.
  rewrite (split_LF_line l "" H). cbn. now rewrite append_nil_r.
Qed.

Lemma streamQuery_lines_app (l1 l2 : list string) :
  streamQuery_lines JSON_parse (l1 ++ l2)
  = streamQuery_lines JSON_parse l1 ++ streamQuery_lines JSON_parse l2.
Proof. unfold streamQuery_lines. apply omap_app. Qed.

Lemma streamQuery_lines_single (line : string) :
  streamQuery_lines JSON_parse [line]
  = option_list (streamQuery_line JSON_parse line).
Proof.
  unfold streamQuery_lines, omap, list_omap.
  now destruct (streamQuery_line JSON_parse line).
Qed.

End ChunkFacts.

(** X21: how the events depend on the chunks.  A chunk boundary right
    after a line feed is invisible: the two chunks yield what the one
    joined chunk yields.  A boundary inside a line is not: the two parts of
    the line are decoded as two lines, one after the other, where the joined
    chunk decodes the whole line. *)
Theorem X21_chunk_boundaries
    (Json : Type) (JSON_parse : string -> option Json)
    (before part1 part2 after : string) :
  FrameDecoder.streamQuery_chunks JSON_parse
    [before +:+ Js.str Js.LF; after]
  = FrameDecoder.streamQuery_chunks JSON_parse
      [before +:+ Js.str Js.LF +:+ after] /\
  (free_of Js.LF part1 = true ->
   free_of Js.LF part2 = true ->
   FrameDecoder.streamQuery_chunks JSON_parse
     [before +:+ String Js.LF part1; part2 +:+ String Js.LF after]
   = FrameDecoder.streamQuery_chunk JSON_parse before
     ++ option_list (FrameDecoder.streamQuery_line JSON_parse part1)
     ++ option_list (FrameDecoder.streamQuery_line JSON_parse part2)
     ++ FrameDecoder.streamQuery_chunk JSON_parse after) /\
  (free_of Js.LF part1 = true ->
   free_of Js.LF part2 = true ->
   FrameDecoder.streamQuery_chunks JSON_parse
     [before +:+ String Js.LF (part1 +:+ part2 +:+ String Js.LF after)]
   = FrameDecoder.streamQuery_chunk JSON_parse before
     ++ option_list (FrameDecoder.streamQuery_line JSON_parse (part1 +:+ part2))
     ++ FrameDecoder.streamQuery_chunk JSON_parse after).
Proof.
  unfold FrameDecoder.streamQuery_chunks, FrameDecoder.streamQuery_chunk.
  cbn [flat_map]. rewrite !app_nil_r.
  split; [| split].
  - change (Js.str Js.LF +:+ after) with (String Js.LF after).
    change (Js.str Js.LF) with (String Js.LF "").
    rewrite !split_LF_append, !streamQuery_lines_app. cbn [FrameDecoder.split_LF].
    change (FrameDecoder.streamQuery_lines JSON_parse [""]) with (@nil Json).
    now rewrite app_nil_r.
  - intros H1 H2.
    rewrite !split_LF_append, !streamQuery_lines_app.
    rewrite (split_LF_single part1 H1), (split_LF_single part2 H2).
    rewrite !streamQuery_lines_single. now rewrite <- !app_assoc.
  - intros H1 H2.
    rewrite split_LF_append, <- append_assoc, split_LF_append.
    rewrite !streamQuery_lines_app.
    assert (H12 : free_of Js.LF (part1 +:+ part2) = true).
    { clear -H1 H2. induction part1 as [|c p IH]; cbn [String.append free_of] in *;
        [exact H2 |].
      apply andb_true_iff in H1 as [Hc Hp]. now rewrite Hc, (IH Hp). }
    rewrite (split_LF_single _ H12).
    rewrite streamQuery_lines_single. now rewrite <- ?app_assoc.
Qed.

(** ** Button state tracker: what a mark changes *)

Section ButtonStateMore.
Import ButtonStateManager.

(** The run-set stored for the message after [markButtonAsRun]: the old
    run-set, with the action at its end when it was not in it. *)
Lemma markButtonAsRun_run_set (m : Z) (a : string) (store : gmap Z ButtonState) :
  exists state,
    markButtonAsRun m a store !! m = Some state /\
    buttons_run state =
      let old := match store !! m with Some s => buttons_run s | None => [] end in
      if array_includes old a then old else old ++ [a].
Proof.
  unfold markButtonAsRun. eexists. rewrite lookup_insert_eq. split; [reflexivity |].
  destruct (store !! m) as [s|]; cbn [buttons_run].
  - now destruct (array_includes (buttons_run s) a).
  - reflexivity.
Qed.

Lemma markButtonAsRun_other (m k : Z) (a : string) (store : gmap Z ButtonState) :
  m <> k -> markButtonAsRun m a store !! k = store !! k.
Proof. intros H. unfold markButtonAsRun. now rewrite lookup_insert_ne. Qed.

End ButtonStateMore.

(** X22: what [markButtonAsRun] changes.  After the call an action has
    been run for a message exactly when it had been run before or is the
    action and the message of the call; the states of the other messages
    are untouched; run-sets without a repeated action stay without one; and
    marks for two different messages can be made in either order. *)
Theorem X22_markButtonAsRun_effect
    (m : Z) (a : string) (store : gmap Z ButtonStateManager.ButtonState) :
  (forall k b,
     has_run (ButtonStateManager.markButtonAsRun m a store) k b <->
     has_run store k b \/ (k = m /\ b = a)) /\
  (forall k, k <> m ->
     ButtonStateManager.markButtonAsRun m a store !! k = store !! k) /\
  ((forall k state, store !! k = Some state ->
      List.NoDup (ButtonStateManager.buttons_run state)) ->
   forall k state,
     ButtonStateManager.markButtonAsRun m a store !! k = Some state ->
     List.NoDup (ButtonStateManager.buttons_run state)) /\
  (forall m' b, m <> m' ->
     ButtonStateManager.markButtonAsRun m a
       (ButtonStateManager.markButtonAsRun m' b store)
     = ButtonStateManager.markButtonAsRun m' b
         (ButtonStateManager.markButtonAsRun m a store)).
Proof.
  destruct (markButtonAsRun_run_set m a store) as (st & Hst & Hrun).
  cbv zeta in Hrun.
  split; [| split; [| split]].
  - intros k b. unfold has_run. destruct (decide (k = m)) as [->|Hne].
    + rewrite Hst. split.
      * intros (s & [= <-] & Hin). rewrite Hrun in Hin.
        destruct (store !! m) as [old|] eqn:E.
        -- destruct (ButtonStateManager.array_includes
                       (ButtonStateManager.buttons_run old) a).
           ++ left. now exists old.
           ++ apply in_app_or in Hin as [Hin | [<- | []]];
                [left; now exists old | now right].
        -- cbn in Hin. destruct Hin as [<- | []]. now right.
      * intros [(old & Hold & Hin) | (_ & ->)].
        -- exists st. split; [reflexivity |]. rewrite Hold in Hrun. rewrite Hrun.
           destruct (ButtonStateManager.array_includes
                       (ButtonStateManager.buttons_run old) a);
             [exact Hin | apply in_or_app; now left].
        -- exists st. split; [reflexivity |]. rewrite Hrun.
           match goal with
           | |- In a (if ButtonStateManager.array_includes ?l a then _ else _) =>
               destruct (ButtonStateManager.array_includes l a) eqn:E
           end.
           ++ now apply array_includes_In.
           ++ apply in_or_app. right. now left.
    + rewrite (markButtonAsRun_other m k a store) by congruence.
      split; [now left | intros [H | [H _]]; [exact H | contradiction]].
  - intros k Hne. apply markButtonAsRun_other. congruence.
  - intros Hnodup k state. destruct (decide (k = m)) as [->|Hne].
    + rewrite Hst. intros [= <-]. rewrite Hrun.
      destruct (store !! m) as [old|] eqn:E.
      * specialize (Hnodup m old E).
        destruct (ButtonStateManager.array_includes
                    (ButtonStateManager.buttons_run old) a) eqn:Ea; [exact Hnodup |].
        apply List.NoDup_app; [exact Hnodup | repeat constructor; intros [] |].
        intros x Hx [<- | []].
        apply array_includes_In in Hx. congruence.
      * cbn. repeat constructor. intros [].
    + rewrite (markButtonAsRun_other m k a store) by congruence. apply Hnodup.
  - intros m' b Hne. unfold ButtonStateManager.markButtonAsRun.
    rewrite !lookup_insert_ne by congruence.
    now rewrite insert_insert_ne by congruence.
Qed.

(** ** API keys *)

Section APIKeyFacts.
Import APIKeyManager.

Lemma non_empty_Some (key : string) : key <> "" -> non_empty (Some key) = Some key.
Proof. destruct key; [congruence | reflexivity]. Qed.

Lemma non_empty_spec (key : option string) (k : string) :
  non_empty key = Some k <-> key = Some k /\ k <> "".
Proof.
  destruct key as [[|c s]|]; cbn; split; try discriminate.
  - intros [[= <-] H]. congruence.
  - intros [= <-]. split; [reflexivity | discriminate].
  - intros [[= <-] _]. reflexivity.
  - intros [H _]. discriminate.
Qed.

Lemma length_toLowerCase (s : string) :
  String.length (toLowerCase s) = String.length s.
Proof. induction s as [|c s IH]; cbn; [reflexivity | now rewrite IH]. Qed.

Lemma supported_cases (provider : string) :
  supported provider = true <-> provider = "rao" \/ provider = "openai".
Proof.
  unfold supported. rewrite orb_true_iff, !String.eqb_eq. reflexivity.
Qed.

End APIKeyFacts.

(** X23: saving and reading a key.  The providers rao and openai share one
    slot: a non-empty key saved for either is the key read for both,
    whatever the environment holds.  For any other provider [saveKey]
    throws, shows the error and leaves the storage as it was, and [getKey]
    returns nothing even when a key is stored. *)
Theorem X23_saveKey_getKey
    (provider reader key : string) (stored envKey : option string) :
  (APIKeyManager.supported provider = true ->
   APIKeyManager.supported reader = true ->
   key <> "" ->
   APIKeyManager.thrown
     (APIKeyManager.saveKey provider key (APIKeyManager.Working stored)) = None /\
   APIKeyManager.getKey reader
     (APIKeyManager.storage
        (APIKeyManager.saveKey provider key (APIKeyManager.Working stored))) envKey
   = Some key) /\
  (APIKeyManager.supported provider = false ->
   APIKeyManager.thrown
     (APIKeyManager.saveKey provider key (APIKeyManager.Working stored))
   = Some ("Unsupported provider: " +:+ provider) /\
   APIKeyManager.storage
     (APIKeyManager.saveKey provider key (APIKeyManager.Working stored))
   = APIKeyManager.Working stored /\
   APIKeyManager.getKey provider (APIKeyManager.Working stored) envKey = None).
Proof.
  unfold APIKeyManager.saveKey, APIKeyManager.getKey. split.
  - intros -> -> Hkey. cbv iota.
    cbn [APIKeyManager.storage APIKeyManager.thrown].
    now rewrite (non_empty_Some key Hkey).
  - intros ->. repeat split.
Qed.

(** X24: where a key comes from.  For rao and openai the stored key wins
    when it is not empty, else the key of the environment when it is not
    empty, else there is none; [hasKey] is true exactly when [getKey] finds
    a key.  [getKeyStatus] does not look at the provider: for every provider
    it reports what [hasKey] and [testKey] say for rao, so for another
    provider it can report a key that [getKey] does not return. *)
Theorem X24_key_lookup
    (provider : string) (stored envKey : option string) :
  (APIKeyManager.supported provider = true ->
   APIKeyManager.getKey provider (APIKeyManager.Working stored) envKey =
     match stored with
     | Some key => if (key =? "")%string then APIKeyManager.non_empty envKey else Some key
     | None => APIKeyManager.non_empty envKey
     end) /\
  (APIKeyManager.hasKey provider (APIKeyManager.Working stored) envKey = true <->
   exists key,
     APIKeyManager.getKey provider (APIKeyManager.Working stored) envKey = Some key) /\
  APIKeyManager.status_hasKey
    (APIKeyManager.getKeyStatus provider (APIKeyManager.Working stored) envKey)
  = APIKeyManager.hasKey "rao" (APIKeyManager.Working stored) envKey /\
  APIKeyManager.status_isValid
    (APIKeyManager.getKeyStatus provider (APIKeyManager.Working stored) envKey)
  = APIKeyManager.testKey "rao" (APIKeyManager.Working stored) envKey /\
  (APIKeyManager.status_source
     (APIKeyManager.getKeyStatus provider (APIKeyManager.Working stored) envKey)
   = APIKeyManager.storage_source <->
   exists key, stored = Some key /\ key <> "").
Proof.
  split; [| split; [| split; [| split]]].
  - unfold APIKeyManager.getKey. intros ->.
    destruct stored as [[|c s]|]; reflexivity.
  - unfold APIKeyManager.hasKey.
    destruct (APIKeyManager.getKey provider _ envKey) as [key|] eqn:E.
    + split; [intros _; now exists key |]. intros _.
      unfold APIKeyManager.getKey in E.
      destruct (APIKeyManager.supported provider); [| discriminate].
      destruct (APIKeyManager.non_empty stored) as [k|] eqn:E1.
      * injection E as <-. apply non_empty_spec in E1 as [_ Hk].
        destruct k; [congruence | reflexivity].
      * apply non_empty_spec in E as [_ Hk].
        destruct key; [congruence | reflexivity].
    + split; [discriminate | intros [key H]; discriminate].
  - unfold APIKeyManager.getKeyStatus, APIKeyManager.hasKey, APIKeyManager.getKey.
    cbn [APIKeyManager.supported String.eqb Ascii.eqb Bool.eqb orb].
    destruct (APIKeyManager.non_empty stored) as [k|] eqn:E1.
    + apply non_empty_spec in E1 as [_ Hk]. destruct k; [congruence | reflexivity].
    + destruct (APIKeyManager.non_empty envKey) as [k|] eqn:E2; [| reflexivity].
      apply non_empty_spec in E2 as [_ Hk]. destruct k; [congruence | reflexivity].
  - unfold APIKeyManager.getKeyStatus, APIKeyManager.testKey, APIKeyManager.getKey.
    cbn [APIKeyManager.supported String.eqb Ascii.eqb Bool.eqb orb].
    destruct (APIKeyManager.non_empty stored) as [k|] eqn:E1.
    + apply non_empty_spec in E1 as [_ Hk].
      rewrite (proj2 (String.eqb_neq k "") Hk). reflexivity.
    + destruct (APIKeyManager.non_empty envKey) as [k|] eqn:E2; [| reflexivity].
      apply non_empty_spec in E2 as [_ Hk].
      rewrite (proj2 (String.eqb_neq k "") Hk). reflexivity.
  - unfold APIKeyManager.getKeyStatus.
    destruct (APIKeyManager.non_empty stored) as [k|] eqn:E1.
    + apply non_empty_spec in E1 as [-> Hk]. split; [intros _; now exists k | reflexivity].
    + split.
      * now destruct (APIKeyManager.non_empty envKey).
      * intros (key & -> & Hk). rewrite (non_empty_Some key Hk) in E1. discriminate.
Qed.

(** X25: which keys [validateKeyFormat] accepts.  A key is accepted
    exactly when it has at least 10 characters and is not your-key-here in
    any mix of upper and lower case; the other listed invalid values are
    shorter than 10 characters and are refused by the length test
    already. *)
Theorem X25_validateKeyFormat (provider key : string) :
  APIKeyManager.validateKeyFormat provider key = true <->
  (10 <= String.length key)%nat /\
  APIKeyManager.toLowerCase key <> "your-key-here".
Proof.
  unfold APIKeyManager.validateKeyFormat.
  destruct (Nat.eqb_spec (String.length key) 0) as [H0|H0].
  - split; [discriminate | intros [H _]; lia].
  - destruct (Nat.ltb_spec (String.length key) 10) as [Hlt|Hge].
    + split; [discriminate | intros [H _]; lia].
    + pose proof (length_toLowerCase key) as Hlen.
      destruct (String.eqb_spec (APIKeyManager.toLowerCase key) "your-key-here")
        as [Heq|Hne].
      * rewrite Heq. cbn. split; [discriminate | intros [_ H]; congruence].
      * assert (Hex : existsb (String.eqb (APIKeyManager.toLowerCase key))
                        APIKeyManager.invalidValues = false).
        { apply not_true_is_false. intros Hex.
          apply existsb_exists in Hex as (v & Hin & Hv).
          apply String.eqb_eq in Hv. subst v. cbn in Hin.
          destruct Hin as [H | [H | [H | [H | [H | []]]]]];
            try congruence;
            rewrite <- H in Hlen; cbn in Hlen; lia. }
        rewrite Hex. split; [intros _; split; [exact Hge | exact Hne] | reflexivity].
Qed.

(** ** The backend client *)

(** X26: the loop of [checkHealth] makes at most three requests, with the
    timeouts 5000, 10000 and 15000 in this order, stops at the first answer
    that is up, pauses 2000 between two requests and never after the last
    one, and returns false only when all three attempts failed.  The time
    the loop can take is at most 34000 milliseconds. *)
Theorem X26_checkHealth (answer : nat -> Z -> BackendClient.HealthAttempt) :
  let up i timeoutMs := BackendClient.is_up (answer i timeoutMs) in
  let run := BackendClient.checkHealth answer in
  (up 0%nat 5000%Z = true ->
   run = (true, [BackendClient.Request 5000])) /\
  (up 0%nat 5000%Z = false -> up 1%nat 10000%Z = true ->
   run = (true, [BackendClient.Request 5000; BackendClient.Pause 2000;
                 BackendClient.Request 10000])) /\
  (up 0%nat 5000%Z = false -> up 1%nat 10000%Z = false ->
   run = (up 2%nat 15000%Z,
          [BackendClient.Request 5000; BackendClient.Pause 2000;
           BackendClient.Request 10000; BackendClient.Pause 2000;
           BackendClient.Request 15000])) /\
  (run.1 = true <->
   up 0%nat 5000%Z = true \/ up 1%nat 10000%Z = true \/ up 2%nat 15000%Z = true) /\
  (fold_right Z.add 0 (map BackendClient.duration run.2) <= 34000)%Z.
Proof.
  cbv zeta. unfold BackendClient.checkHealth. cbn.
  destruct (BackendClient.is_up (answer 0%nat 5000%Z)) eqn:E0;
    destruct (BackendClient.is_up (answer 1%nat 10000%Z)) eqn:E1;
    destruct (BackendClient.is_up (answer 2%nat 15000%Z)) eqn:E2;
    cbn; repeat split; intros; try reflexivity; try discriminate; try lia;
    try (intuition congruence).
Qed.

Lemma resetEnvironment_detects (w : BackendClient.Surroundings) (this : BackendClient.t) :
  BackendClient.resetEnvironment w this =
    ((BackendClient.detectEnvironment w BackendClient.new).1.2,
     (BackendClient.detectEnvironment w BackendClient.new).2).
Proof.
  unfold BackendClient.resetEnvironment, BackendClient.new.
  now destruct (BackendClient.detectEnvironment w _) as [[c d] a].
Qed.

(** X27: the environment is detected once.  A backend URL that is set
    decides the environment without a request: local when the URL contains
    the text localhost, production otherwise.  Without it the local backend
    is asked, and the environment is local exactly when it answers with
    status 200.  The timeout of the configuration is 30000 in every case.
    After a detection [getBackendConfig] returns the same configuration
    without asking again, whatever has changed around the client, until
    [resetEnvironment] detects anew. *)
Theorem X27_environment_detection
    (w w' : BackendClient.Surroundings) (this : BackendClient.t) :
  let '(config, detected, asked) := BackendClient.detectEnvironment w this in
  BackendClient.timeout config = 30000%Z /\
  (forall manualUrl,
     BackendClient.backend_url w = Some manualUrl -> manualUrl <> "" ->
     asked = false /\
     BackendClient.url config = manualUrl /\
     (BackendClient.environment config = BackendClient.local <->
      occurs_in "localhost" manualUrl)) /\
  (BackendClient.backend_url w = None \/ BackendClient.backend_url w = Some "" ->
   asked = true /\
   (BackendClient.environment config = BackendClient.local <->
    BackendClient.local_probe w = BackendClient.ProbeStatus 200) /\
   BackendClient.url config =
     match BackendClient.environment config with
     | BackendClient.local => ApiTypes.local_url
     | BackendClient.production => ApiTypes.production_url
     end) /\
  BackendClient.getBackendConfig w' detected = (config, detected, false) /\
  BackendClient.resetEnvironment w' detected =
    ((BackendClient.detectEnvironment w' BackendClient.new).1.2,
     (BackendClient.detectEnvironment w' BackendClient.new).2).
Proof.
  unfold BackendClient.detectEnvironment, BackendClient.getBackendUrl.
  destruct (BackendClient.backend_url w) as [u|] eqn:Eu.
  - destruct (String.eqb_spec u "") as [->|Hu].
    + destruct (BackendClient.local_probe w) as [|status] eqn:Ep;
        [| destruct (Z.eqb_spec status 200) as [->|Hs]];
        cbn; (split; [reflexivity |]); (split; [intros m [= <-] H; congruence |]);
        (split; [| split; [reflexivity |
           apply resetEnvironment_detects]]);
        intros _; repeat split; try reflexivity; try discriminate; try congruence.
    + cbn. split; [reflexivity |]. split; [| split; [| split]].
      * intros m [= <-] _. split; [reflexivity | split; [reflexivity |]].
        rewrite <- includes_spec.
        destruct (Js.includes u "localhost"); split; congruence.
      * intros [H | [= H]]; congruence.
      * reflexivity.
      * apply resetEnvironment_detects.
  - destruct (BackendClient.local_probe w) as [|status] eqn:Ep;
      [| destruct (Z.eqb_spec status 200) as [->|Hs]];
      cbn; (split; [reflexivity |]); (split; [intros m H; discriminate |]);
      (split; [| split; [reflexivity |
         apply resetEnvironment_detects]]);
      intros _; repeat split; try reflexivity; try discriminate; try congruence.
Qed.

Section SendQueryFacts.
Import ErrorClassifier BackendClient.

Lemma first_truthy_nonempty (a b : option string) (fallback : string) :
  fallback <> "" -> first_truthy a b fallback <> "".
Proof.
  intros Hf. unfold first_truthy.
  destruct a as [x|]; [destruct (String.eqb_spec x "") |];
    cbn [negb]; try assumption;
    destruct b as [y|]; try assumption;
    destruct (String.eqb_spec y ""); cbn [negb]; assumption.
Qed.

(** An [Error] made from a message is retryable, whatever the message. *)
Lemma new_Error_retryable (message : string) :
  isRetryableError (new_Error message) = true.
Proof.
  unfold isRetryableError, new_Error. cbn [optional_get property].
  now destruct (String.eqb "message" "error").
Qed.

End SendQueryFacts.

(** X28: what [sendQuery] returns and throws.  Without an API key it
    throws and the query is not posted.  It returns the body exactly when the
    response is ok and its JSON can be read.  For a response that is not ok
    it throws a new error whose message is the user message of the body, or
    else the message of the body, or else the text Request failed, and is
    never empty; this error carries no error type, so [isRetryableError]
    calls it retryable even when the body reported one of the terminal error
    types. *)
Theorem X28_sendQuery
    (apiKey : option string) (fetch : BackendClient.FetchOutcome)
    (responseData : BackendClient.BackendResponse) :
  (apiKey = None \/ apiKey = Some "" ->
   BackendClient.sendQuery apiKey fetch =
     (false,
      BackendClient.Throws
        (BackendClient.new_Error
           "No API key found. Please set up a valid Rao API key."))) /\
  ((BackendClient.sendQuery apiKey fetch).2 = BackendClient.Returns responseData <->
   (exists key, apiKey = Some key /\ key <> "") /\
   fetch = BackendClient.FetchResolves true (BackendClient.JsonResolves responseData)) /\
  (forall key, key <> "" ->
     exists message,
       BackendClient.sendQuery (Some key)
         (BackendClient.FetchResolves false (BackendClient.JsonResolves responseData))
       = (true, BackendClient.Throws (BackendClient.new_Error message)) /\
       message <> "" /\
       message =
         BackendClient.first_truthy
           (BackendClient.error_user_message responseData)
           (BackendClient.message responseData) "Request failed" /\
       ErrorClassifier.isRetryableError (BackendClient.new_Error message) = true).
Proof.
  split; [| split].
  - intros [-> | ->]; reflexivity.
  - unfold BackendClient.sendQuery. split.
    + destruct apiKey as [key|]; [| discriminate].
      destruct (String.eqb_spec key "") as [->|Hkey]; [discriminate |].
      cbn [snd]. destruct fetch as [e | ok [e | body]]; try discriminate.
      destruct ok; cbn [negb]; [| discriminate].
      intros [= <-]. split; [now exists key | reflexivity].
    + intros [(key & -> & Hkey) ->].
      now rewrite (proj2 (String.eqb_neq key "") Hkey).
  - intros key Hkey. eexists. unfold BackendClient.sendQuery.
    rewrite (proj2 (String.eqb_neq key "") Hkey). cbn [negb].
    split; [reflexivity | split; [| split; [reflexivity |]]].
    + now apply first_truthy_nonempty.
    + apply new_Error_retryable.
Qed.
